(** * Motion detection over CoAP: edge detector, resources, classifier clients

    A shallow embedding of
    - [coap-motion-detector/motion_detection/detector.py] (module [Detector]),
    - [coap-motion-detector/coap/server.py]              (module [Server]),
    - [coap-motion-classifier/classifier.py]             (module [Classifier]),
    - [motion-classification/main.py]                    (module [Mqtt]),
    followed by the properties proved about them.

    Conventions of the embedding.
    - Python [bytes] values are [list byte].
    - Python [str] values are [string]; every character is a code point
      below 256, and [encode] is UTF-8 on that range.
    - Wall-clock readings ([time.time()]) and the configured intervals are
      exact numbers of one unit (say milliseconds) in [Z]; the rounding of
      binary floating point is outside the model.
    - What OpenCV, aiocoap and paho compute is not re-implemented: the value
      an external call returns is an input of the embedded function. *)

From Stdlib Require Import ZArith QArith_base.
From Stdlib.Strings Require Import Byte.
From stdpp Require Import base option list gmap strings.

Local Open Scope Z_scope.

(** Bytes literals: [b"true"] is written [bytes_of "true"]. *)
Definition bytes := list byte.
Definition bytes_of (s : string) : bytes := String.list_byte_of_string s.

#[global] Instance byte_eq_decision : EqDecision byte := Byte.byte_eq_dec.

(* ===================================================================== *)
(** * detector.py *)
(* ===================================================================== *)

Module Detector.

(** A rectangle [(x, y, w, h)] as returned by [cv2.boundingRect]. *)
Record Rect := mkRect { rx : Z; ry : Z; rw : Z; rh : Z }.

(** A contour found by [cv2.findContours], with the two quantities the
    detector reads off it: [cv2.contourArea] and [cv2.boundingRect]. Areas
    and the threshold [min_contour_area] are exact numbers of one unit. *)
Record Contour := mkContour { contourArea : Z; boundingRect : Rect }.

(** A BGR image: a list of rows, each a list of pixels. *)
Definition Pixel : Type := byte * byte * byte.
Abbreviation Image := (list (list Pixel)).

(** [frame.shape[:2]] is [(H, W)]. *)
Definition shape_H (frame : Image) : Z := Z.of_nat (length frame).
Definition shape_W (frame : Image) : Z :=
  match frame with
  | [] => 0
  | row :: _ => Z.of_nat (length row)
  end.

(** Every row of a numpy array has the same length. *)
Definition rectangular (frame : Image) : Prop :=
  Forall (fun row => Z.of_nat (length row) = shape_W frame) frame.

(** Python's [l[a:b]]: a negative bound counts from the end, and both
    bounds are clipped to [0..len]. *)
Definition slice_index (len i : Z) : Z :=
  if i <? 0 then Z.max 0 (i + len) else Z.min i len.

Definition py_slice {A} (l : list A) (a b : Z) : list A :=
  let n := Z.of_nat (length l) in
  let lo := slice_index n a in
  let hi := slice_index n b in
  take (Z.to_nat (hi - lo)) (drop (Z.to_nat lo) l).

(** [frame[y0:y1, x0:x1]] *)
Definition slice2d (frame : Image) (y0 y1 x0 x1 : Z) : Image :=
  (fun row => py_slice row x0 x1) <$> py_slice frame y0 y1.

(** The constructor arguments of [MotionDetector] that the loop reads.
    [pad_ratio] is a rational ([0.12] is [12 # 100]). *)
Record Config := mkConfig {
  min_contour_area : Z;
  pad_ratio : Q;
  cooldown : Z;
  quiet : Z
}.

(** The [# state] fields of [MotionDetector]. *)
Record State := mkState {
  motion_on : bool;
  last_motion_seen_ts : Z;
  last_rise_ts : Z
}.

Definition init : State :=
  {| motion_on := false; last_motion_seen_ts := 0; last_rise_ts := 0 |}.

(** [_largest_contour]: the loop body, with [(best, best_a)] as
    accumulator, then the function itself starting from [(None, 0)]. *)
Fixpoint largest_from (best : option Contour) (best_a : Z)
    (cnts : list Contour) (min_area : Z) : option Contour :=
  match cnts with
  | [] => best
  | c :: cnts' =>
      let a := contourArea c in
      if (min_area <? a) && (best_a <? a)
      then largest_from (Some c) a cnts' min_area
      else largest_from best best_a cnts' min_area
  end.

Definition _largest_contour (cnts : list Contour) (min_area : Z)
    : option Contour :=
  largest_from None 0 cnts min_area.

(** [int(max(w, h) * self.pad_ratio)]: [int] truncates towards zero. The
    product is taken exactly; what is proved about the crop takes the pad
    as it comes and only asks it to be non-negative. *)
Definition pad_of (cfg : Config) (w h : Z) : Z :=
  Z.quot (Z.max w h * Qnum (pad_ratio cfg)) (Zpos (Qden (pad_ratio cfg))).

(** [_crop_with_pad]: the crop and the clamped corners [(x0, y0, x1, y1)]. *)
Definition _crop_with_pad (cfg : Config) (frame : Image) (rect : Rect)
    : Image * (Z * Z * Z * Z) :=
  let '(x, y, w, h) := (rx rect, ry rect, rw rect, rh rect) in
  let pad := pad_of cfg w h in
  let H := shape_H frame in
  let W := shape_W frame in
  let x0 := Z.max 0 (x - pad) in
  let y0 := Z.max 0 (y - pad) in
  let x1 := Z.min W (x + w + pad) in
  let y1 := Z.min H (y + h + pad) in
  (slice2d frame y0 y1 x0 x1, (x0, y0, x1, y1)).

(** One successful [cap.read()] together with what the OpenCV pipeline
    and the clock return on that iteration: the frame, the contours of the
    cleaned foreground mask, and [time.time()]. *)
Record FrameIn := mkFrameIn {
  frame : Image;
  cnts : list Contour;
  now : Z
}.

(** The two callbacks; both return to the loop. *)
Inductive Event :=
| Rise (crop : option Image)
| Fall.

(** [motion_now = big is not None] *)
Definition is_not_None {A} (o : option A) : bool :=
  match o with Some _ => true | None => false end.

Definition motion_now_of (cfg : Config) (f : FrameIn) : bool :=
  is_not_None (_largest_contour (cnts f) (min_contour_area cfg)).

(** The three [if] statements of one iteration, in order. *)
Definition see_motion (motion_now : bool) (t : Z) (s : State) : State :=
  if motion_now
  then {| motion_on := motion_on s;
          last_motion_seen_ts := t;
          last_rise_ts := last_rise_ts s |}
  else s.

Definition rise_guard (cfg : Config) (motion_now : bool) (t : Z) (s : State)
    : bool :=
  negb (motion_on s) && motion_now && (cooldown cfg <=? t - last_rise_ts s).

Definition rising_edge (cfg : Config) (f : FrameIn) (big : option Contour)
    (motion_now : bool) (s : State) : State * list Event :=
  if rise_guard cfg motion_now (now f) s
  then
    let crop :=
      match big with
      | Some c => Some (fst (_crop_with_pad cfg (frame f) (boundingRect c)))
      | None => None
      end in
    ({| motion_on := true;
        last_motion_seen_ts := last_motion_seen_ts s;
        last_rise_ts := now f |},
     [Rise crop])
  else (s, []).

Definition fall_guard (cfg : Config) (t : Z) (s : State) : bool :=
  motion_on s && (quiet cfg <=? t - last_motion_seen_ts s).

Definition falling_edge (cfg : Config) (f : FrameIn) (s : State)
    : State * list Event :=
  if fall_guard cfg (now f) s
  then ({| motion_on := false;
           last_motion_seen_ts := last_motion_seen_ts s;
           last_rise_ts := last_rise_ts s |},
        [Fall])
  else (s, []).

(** One iteration of [while True] for a frame that was read. *)
Definition step (cfg : Config) (s : State) (f : FrameIn)
    : State * list Event :=
  let big := _largest_contour (cnts f) (min_contour_area cfg) in
  let motion_now := is_not_None big in
  let s1 := see_motion motion_now (now f) s in
  let '(s2, rise) := rising_edge cfg f big motion_now s1 in
  let '(s3, fall) := falling_edge cfg f s2 in
  (s3, rise ++ fall).

(** A callback invocation, tagged with [now] of the iteration making it. *)
Definition Timed : Type := Z * Event.

(** [loop], run on the frames read before [cap.read()] fails: the
    callback invocations in order, and the state afterwards. *)
Fixpoint loop_from (cfg : Config) (s : State) (frames : list FrameIn)
    : list Timed :=
  match frames with
  | [] => []
  | f :: frames' =>
      (pair (now f) <$> snd (step cfg s f))
        ++ loop_from cfg (fst (step cfg s f)) frames'
  end.

Fixpoint state_from (cfg : Config) (s : State) (frames : list FrameIn)
    : State :=
  match frames with
  | [] => s
  | f :: frames' => state_from cfg (fst (step cfg s f)) frames'
  end.

Definition loop (cfg : Config) (frames : list FrameIn) : list Timed :=
  loop_from cfg init frames.

Definition state_after (cfg : Config) (frames : list FrameIn) : State :=
  state_from cfg init frames.

(** The instants of the [on_rise] calls of a trace. *)
Definition rise_times (tr : list Timed) : list Z :=
  omap (fun e => match e with (t, Rise _) => Some t | _ => None end) tr.

(** The run configured in [run.py], in milliseconds. *)
Definition run_py : Config :=
  {| min_contour_area := 2500; pad_ratio := (12 # 100)%Q;
     cooldown := 1000; quiet := 3000 |}.

(** ** Vocabulary of the properties *)

(** The state in which the rising-edge test is made. *)
Definition seen (cfg : Config) (s : State) (f : FrameIn) : State :=
  see_motion (motion_now_of cfg f) (now f) s.

Definition rises_at (cfg : Config) (s : State) (f : FrameIn) : bool :=
  rise_guard cfg (motion_now_of cfg f) (now f) (seen cfg s f).

Definition falls_at (cfg : Config) (s : State) (f : FrameIn) : bool :=
  fall_guard cfg (now f)
    (fst (rising_edge cfg f (_largest_contour (cnts f) (min_contour_area cfg))
            (motion_now_of cfg f) (seen cfg s f))).

(** [gaps c prev l]: [l] starts at least [c] after [prev], and each of its
    elements comes at least [c] after the one before. *)
Fixpoint gaps (c prev : Z) (l : list Z) : Prop :=
  match l with
  | [] => True
  | t :: l' => c <= t - prev /\ gaps c t l'
  end.

(** The instant of the last frame on which [motion_now] held; [0.0], the
    initial value of the field, when there was none. *)
Definition last_motion_ts (cfg : Config) (frames : list FrameIn) : Z :=
  default 0
    (last (now <$> filter (fun f => motion_now_of cfg f = true) frames)).

(** The detector has announced a rise and no fall since: the most recent
    callback of the trace is [on_rise]. *)
Definition active_after (tr : list Timed) : bool :=
  match last tr with
  | Some (_, Rise _) => true
  | _ => false
  end.

(** A contour counts when its area exceeds [min_area] (and the initial
    [best_a = 0]). *)
Definition qualifies (min_area : Z) (c : Contour) : Prop :=
  min_area < contourArea c /\ 0 < contourArea c.

(** [rect] lies within a frame of shape [(H, W)]. *)
Definition within (frame : Image) (rect : Rect) : Prop :=
  0 <= rx rect /\ 0 <= ry rect /\ 0 <= rw rect /\ 0 <= rh rect /\
  rx rect + rw rect <= shape_W frame /\ ry rect + rh rect <= shape_H frame.

(** Pixel [(i, j)] of an image, row first. *)
Definition pixel (img : Image) (i j : nat) : option Pixel :=
  img !! i ≫= fun row => row !! j.

(** Concrete inputs: a black frame of 4 rows and 6 columns, a frame with
    one contour of area 3000 in it, and a frame without contours. *)
Definition black : Pixel := (x00, x00, x00).
Definition frame_4x6 : Image := replicate 4 (replicate 6 black).
Definition blob : Contour := mkContour 3000 (mkRect 2 1 3 2).
Definition motion_frame (t : Z) : FrameIn := mkFrameIn frame_4x6 [blob] t.
Definition still_frame (t : Z) : FrameIn := mkFrameIn frame_4x6 [] t.

(** The settings of [run.py] with a pad ratio of one half. *)
Definition wide_pad : Config :=
  {| min_contour_area := 2500; pad_ratio := (1 # 2)%Q;
     cooldown := 1000; quiet := 3000 |}.

End Detector.

(* ===================================================================== *)
(** * server.py *)
(* ===================================================================== *)

Module Server.

(** ** Byte strings *)

(** [bytes.strip()] removes ASCII whitespace, [b" \t\n\r\x0b\x0c"], from
    both ends. *)
Definition is_space (b : byte) : bool :=
  match b with
  | x09 | x0a | x0b | x0c | x0d | x20 => true
  | _ => false
  end.

Fixpoint lstrip (l : bytes) : bytes :=
  match l with
  | [] => []
  | b :: l' => if is_space b then lstrip l' else l
  end.

Definition rstrip (l : bytes) : bytes := reverse (lstrip (reverse l)).

Definition strip (l : bytes) : bytes := rstrip (lstrip l).

(** [str.encode()]: UTF-8, here for code points below 256. *)
Definition byte_of_N (n : N) : byte := default x00 (Byte.of_N n).

Definition encode_char (a : Ascii.ascii) : bytes :=
  let n := Ascii.N_of_ascii a in
  if (n <? 128)%N then [byte_of_N n]
  else [byte_of_N (N.lor 192 (N.shiftr n 6));
        byte_of_N (N.lor 128 (N.land n 63))].

Fixpoint encode (s : string) : bytes :=
  match s with
  | EmptyString => []
  | String a s' => encode_char a ++ encode s'
  end.

(** Well-formed UTF-8 (RFC 3629): no stray continuation byte, no overlong
    form, no surrogate, nothing above U+10FFFF. [bytes.decode()] raises
    [UnicodeDecodeError] on anything else. *)
Definition in_range (lo hi : N) (b : byte) : bool :=
  ((lo <=? Byte.to_N b) && (Byte.to_N b <=? hi))%N.

Fixpoint valid_utf8 (l : bytes) : bool :=
  match l with
  | [] => true
  | b0 :: l0 =>
      if in_range 0 127 b0 then valid_utf8 l0
      else if in_range 194 223 b0 then
        match l0 with
        | b1 :: l1 => in_range 128 191 b1 && valid_utf8 l1
        | _ => false
        end
      else if in_range 224 239 b0 then
        match l0 with
        | b1 :: b2 :: l2 =>
            (if in_range 224 224 b0 then in_range 160 191 b1
             else if in_range 237 237 b0 then in_range 128 159 b1
             else in_range 128 191 b1)
            && in_range 128 191 b2 && valid_utf8 l2
        | _ => false
        end
      else if in_range 240 244 b0 then
        match l0 with
        | b1 :: b2 :: b3 :: l3 =>
            (if in_range 240 240 b0 then in_range 144 191 b1
             else if in_range 244 244 b0 then in_range 128 143 b1
             else in_range 128 191 b1)
            && in_range 128 191 b2 && in_range 128 191 b3 && valid_utf8 l3
        | _ => false
        end
      else false
  end.

(** ** Observable resources *)

(** A notification scheduled for one observer, numbered by the sequence
    of the resource at the change. *)
Record Notification := mkNotification { n_peer : nat; n_seq : nat }.

(** What the base class [aiocoap.resource.ObservableResource] keeps for a
    resource: its registered observers and the count of state changes. *)
Record Observable := mkObservable {
  observers : gset nat;
  sequence : nat
}.

(** Modelled from the spec: [ObservableResource.updated_state] belongs to
    aiocoap and is not in the repository. After the spec's [Set], it
    increments [sequence] and schedules one notification for every current
    subscriber of the resource. *)
Definition updated_state (o : Observable) : Observable * list Notification :=
  let n := S (sequence o) in
  ({| observers := observers o; sequence := n |},
   (fun p => mkNotification p n) <$> elements (observers o)).

Record MotionResource := mkMotionResource {
  motion_obs : Observable;
  motion : bytes
}.

Record LastDetectionResource := mkLastDetectionResource {
  last_obs : Observable;
  ts : bytes
}.

Record ImageResource := mkImageResource { jpeg : bytes }.

Record ClassResource := mkClassResource {
  class_obs : Observable;
  label : bytes
}.

(** Messages. [code] and [content_format] are [None] where the
    constructor call does not give them. Of aiocoap's codes the server
    names [CHANGED] only; [CONTENT] is what a GET response defaults to,
    and the two 4.xx codes are the error acknowledgements a server would
    send for a bad or oversized request. *)
Inductive Code := CONTENT | CHANGED | BAD_REQUEST | REQUEST_ENTITY_TOO_LARGE.

Definition is_error (c : Code) : bool :=
  match c with
  | BAD_REQUEST | REQUEST_ENTITY_TOO_LARGE => true
  | CONTENT | CHANGED => false
  end.

Inductive MediaType := text_plain | image_jpeg.

Record Message := mkMessage {
  code : option Code;
  payload : option bytes;
  content_format : option MediaType
}.

(** [MotionResource.set] *)
Definition set (val : bytes) (r : MotionResource)
    : MotionResource * list Notification :=
  if decide (motion r ≠ val)
  then let '(o, ns) := updated_state (motion_obs r) in
       ({| motion_obs := o; motion := val |}, ns)
  else (r, []).

(** [LastDetectionResource.set_now] *)
Definition set_now (s : string) (r : LastDetectionResource)
    : LastDetectionResource * list Notification :=
  let new := encode s in
  if decide (new ≠ ts r)
  then let '(o, ns) := updated_state (last_obs r) in
       ({| last_obs := o; ts := new |}, ns)
  else (r, []).

(** [ImageResource.set_jpeg] *)
Definition set_jpeg (buf : bytes) (r : ImageResource) : ImageResource :=
  {| jpeg := buf |}.

(** The four [render_get] methods. *)
Definition render_get_motion (r : MotionResource) : Message :=
  {| code := None; payload := Some (motion r);
     content_format := Some text_plain |}.

Definition render_get_last (r : LastDetectionResource) : Message :=
  {| code := None; payload := Some (ts r);
     content_format := Some text_plain |}.

Definition render_get_image (r : ImageResource) : Message :=
  {| code := None; payload := Some (jpeg r);
     content_format := Some image_jpeg |}.

Definition render_get_class (r : ClassResource) : Message :=
  {| code := None; payload := Some (label r);
     content_format := Some text_plain |}.

(** [request.payload or b], with [b] the empty bytes literal *)
Definition or_empty (p : option bytes) : bytes :=
  match p with
  | Some (b :: l) => b :: l
  | _ => []
  end.

(** [ClassResource.render_put] *)
Definition render_put (request : Message) (r : ClassResource)
    : ClassResource * list Notification * Message :=
  let new := strip (or_empty (payload request)) in
  let '(r', ns) :=
    if decide (new ≠ label r)
    then let '(o, ns) := updated_state (class_obs r) in
         ({| class_obs := o; label := new |}, ns)
    else (r, []) in
  (r', ns,
   {| code := Some CHANGED; payload := Some (bytes_of "ok");
      content_format := None |}).

(** ** The site and the bridge from the detector *)

Inductive Path := p_motion | p_lastdetection | p_image | p_class.

(** The four resource objects made by [start_server], and the
    notifications scheduled so far, oldest first, each with the resource
    it is about. *)
Record Site := mkSite {
  motion_res : MotionResource;
  last_res : LastDetectionResource;
  image_res : ImageResource;
  class_res : ClassResource;
  outbox : list (Path * Notification)
}.

Definition start (obs_motion obs_last obs_class : gset nat) : Site :=
  {| motion_res := {| motion_obs := mkObservable obs_motion 0;
                      motion := bytes_of "false" |};
     last_res := {| last_obs := mkObservable obs_last 0; ts := [] |};
     image_res := {| jpeg := [] |};
     class_res := {| class_obs := mkObservable obs_class 0; label := [] |};
     outbox := [] |}.

(** One call of [on_rise]: the crop passed by the detector, and what the
    two external calls in the body return on this call, [cv2.imencode]
    ([Some buf] for [ok] with [buf.tobytes()], [None] for [not ok]) and
    [datetime.now().strftime(...)]. *)
Record RiseCall := mkRiseCall {
  crop_bgr : option (list (list Detector.Pixel));
  imencode : option bytes;
  strftime_now : string
}.

(** [crop_bgr.size]: the number of array elements, three per pixel. *)
Definition size (img : list (list Detector.Pixel)) : Z :=
  3 * Z.of_nat (length (concat img)).

(** The three statements of [on_rise], in the order of the body. *)
Definition rise_image (c : RiseCall) (st : Site) : Site :=
  match crop_bgr c with
  | Some crop =>
      if 0 <? size crop then
        match imencode c with
        | Some buf =>
            {| motion_res := motion_res st; last_res := last_res st;
               image_res := set_jpeg buf (image_res st);
               class_res := class_res st; outbox := outbox st |}
        | None => st
        end
      else st
  | None => st
  end.

Definition rise_last (c : RiseCall) (st : Site) : Site :=
  let '(r, ns) := set_now (strftime_now c) (last_res st) in
  {| motion_res := motion_res st; last_res := r;
     image_res := image_res st; class_res := class_res st;
     outbox := outbox st ++ (pair p_lastdetection <$> ns) |}.

Definition set_motion (val : bytes) (st : Site) : Site :=
  let '(r, ns) := set val (motion_res st) in
  {| motion_res := r; last_res := last_res st;
     image_res := image_res st; class_res := class_res st;
     outbox := outbox st ++ (pair p_motion <$> ns) |}.

(** The states after each statement of [on_rise], then the callback as a
    whole, and [on_fall]. *)
Definition on_rise_states (c : RiseCall) (st : Site) : Site * Site * Site :=
  let st1 := rise_image c st in
  let st2 := rise_last c st1 in
  let st3 := set_motion (bytes_of "true") st2 in
  (st1, st2, st3).

Definition on_rise (c : RiseCall) (st : Site) : Site :=
  (on_rise_states c st).2.

Definition on_fall (st : Site) : Site := set_motion (bytes_of "false") st.

(** A PUT on [/class], with the response sent back. *)
Definition put_class (request : Message) (st : Site) : Site * Message :=
  let '(r, ns, resp) := render_put request (class_res st) in
  ({| motion_res := motion_res st; last_res := last_res st;
      image_res := image_res st; class_res := r;
      outbox := outbox st ++ (pair p_class <$> ns) |}, resp).

(** What happens to the site, one after the other. *)
Inductive Op :=
| OnRise (c : RiseCall)
| OnFall
| PutClass (request : Message).

Definition apply_op (st : Site) (op : Op) : Site :=
  match op with
  | OnRise c => on_rise c st
  | OnFall => on_fall st
  | PutClass request => (put_class request st).1
  end.

Definition run (st : Site) (ops : list Op) : Site := foldl apply_op st ops.

(** ** Vocabulary of the properties *)

(** A run of ASCII whitespace. *)
Abbreviation spaces := (Forall (fun b => is_space b = true)).

(** How many of the notifications [ns] are for observer [p]. *)
Definition notified (p : nat) (ns : list Notification) : nat :=
  length (filter (fun n => n_peer n = p) ns).

(** A malformed write in the sense of the specification: a payload that
    is not UTF-8 or is longer than a size limit. *)
Definition malformed (limit : nat) (p : bytes) : Prop :=
  valid_utf8 p = false \/ (limit < length p)%nat.

(** The outcome the specification gives for a malformed write: an error
    acknowledgement, the resource as it was, nothing notified. *)
Definition rejected (request : Message) (r : ClassResource) : Prop :=
  let '(r', ns, resp) := render_put request r in
  (exists c, code resp = Some c /\ is_error c = true) /\ r' = r /\ ns = [].

(** The acknowledgement of every PUT. *)
Definition changed_ok : Message :=
  {| code := Some CHANGED; payload := Some (bytes_of "ok");
     content_format := None |}.

(** The bytes [on_rise] stores in [image], when it stores any: the crop
    is there, is not empty, and was encoded. *)
Definition stored_jpeg (c : RiseCall) : option bytes :=
  match crop_bgr c with
  | Some crop => if 0 <? size crop then imencode c else None
  | None => None
  end.

(** [lastDetection] holds the timestamp of the rise [c]. *)
Definition holds_timestamp (c : RiseCall) (st : Site) : Prop :=
  ts (last_res st) = encode (strftime_now c).

(** [image] holds the JPEG bytes of the snapshot of the rise [c]. *)
Definition holds_snapshot (c : RiseCall) (st : Site) : Prop :=
  imencode c = Some (jpeg (image_res st)).

Definition is_OnRise (op : Op) : bool :=
  match op with OnRise _ => true | _ => false end.

(** A PUT request with payload [p]. *)
Definition PUT (p : bytes) : Message :=
  {| code := None; payload := Some p; content_format := None |}.

(** Two rises one after the other on a fresh site with one observer of
    [lastdetection]: the first crop is encoded, for the second
    [cv2.imencode] reports [not ok]. *)
Definition one_pixel : list (list Detector.Pixel) := [[(x00, x00, x00)]].

Definition rise1 : RiseCall :=
  {| crop_bgr := Some one_pixel; imencode := Some (bytes_of "JPEG-1");
     strftime_now := "2025-01-01_10-00-00" |}.

Definition rise2 : RiseCall :=
  {| crop_bgr := Some one_pixel; imencode := None;
     strftime_now := "2025-01-01_10-00-05" |}.

Definition fresh_site : Site := start ∅ {[ 7%nat ]} {[ 7%nat ]}.

(** A [class] resource holding ["person"], observed by one peer. *)
Definition person_class : ClassResource :=
  {| class_obs := mkObservable {[ 7%nat ]} 3; label := bytes_of "person" |}.

End Server.

(* ===================================================================== *)
(** * classifier.py *)
(* ===================================================================== *)

Module Classifier.

Definition CAMERA : string := "coap://192.168.8.222:5683".
Definition PATH_LAST : string := CAMERA +:+ "/lastdetection".
Definition PATH_IMAGE : string := CAMERA +:+ "/image".
Definition PATH_CLASS : string := CAMERA +:+ "/class".

(** The requests the client sends: [Message(code=GET, uri=..., observe=...)]
    and [Message(code=PUT, uri=..., payload=...)]. *)
Inductive Request :=
| GET (uri : string) (observe : option nat)
| PUT (uri : string) (payload : bytes).

(** A message received on the observation: the number in its Observe
    option and its payload. *)
Record Notification := mkNotification {
  observe_seq : nat;
  n_payload : bytes
}.

(** One invocation of the callback [cb]: the notification passed in, and
    what the GET on [image] made while handling it gives, the payload of
    the response or [None] when awaiting the response raises. *)
Record Delivery := mkDelivery {
  msg : Notification;
  image_reply : option bytes
}.

(** [infer_jpeg] *)
Definition infer_jpeg (jpeg_bytes : bytes) : string := "unknown".

(** [handle_notification]: the requests it sends, in order. An exception
    while awaiting the image ends the task before the PUT. *)
Definition handle_notification (d : Delivery) : list Request :=
  GET PATH_IMAGE None ::
  match image_reply d with
  | Some img => [PUT PATH_CLASS (Server.encode (infer_jpeg img))]
  | None => []
  end.

(** [main]: the request sent at startup, and the task [cb] creates for
    each notification delivered afterwards, in order of creation. When
    awaiting the initial response raises ([initial = None]), or printing
    it does because [r.payload.decode()] fails, no callback is
    registered. *)
Definition main (initial : option Notification) (ds : list Delivery)
    : list Request * list (list Request) :=
  ([GET PATH_LAST (Some 0%nat)],
   match initial with
   | Some r =>
       if Server.valid_utf8 (n_payload r) then handle_notification <$> ds
       else []
   | None => []
   end).

(** ** Vocabulary of the properties *)

(** The notifications the specification has the client act on: those
    whose sequence is strictly greater than that of the last one
    processed, starting from the baseline read. *)
Fixpoint fresh (last_seq : nat) (ds : list Delivery) : list Delivery :=
  match ds with
  | [] => []
  | d :: ds' =>
      if (last_seq <? observe_seq (msg d))%nat
      then d :: fresh (observe_seq (msg d)) ds'
      else fresh last_seq ds'
  end.

(** Each sequence is greater than the one before, from [last_seq] on. *)
Fixpoint increasing (last_seq : nat) (ds : list Delivery) : Prop :=
  match ds with
  | [] => True
  | d :: ds' =>
      (last_seq < observe_seq (msg d))%nat /\ increasing (observe_seq (msg d)) ds'
  end.

(** The same notification delivered twice after a baseline of 0. *)
Definition baseline : Notification := mkNotification 0 [].

Definition twice : list Delivery :=
  let d := mkDelivery (mkNotification 1 (bytes_of "2025-01-01_10-00-00"))
             (Some (bytes_of "JPEG-1")) in
  [d; d].

End Classifier.

(* ===================================================================== *)
(** * motion-classification/main.py *)
(* ===================================================================== *)

Module Mqtt.

(** What paho hands to [on_message]. *)
Record MQTTMessage := mkMQTTMessage {
  topic : string;
  payload : bytes
}.

(** The exceptions of the model, all subclasses of [Exception]. *)
Inductive Exception :=
| cv2_error
| KeyError (key : string).

Inductive result (A : Type) :=
| Ok (a : A)
| Raised (e : Exception).
Arguments Ok {A} a.
Arguments Raised {A} e.

(** The separator of topic levels. *)
Definition slash : Ascii.ascii :=
  Ascii.Ascii true true true true false true false false.

(** [s.split(sep)] for the one-character separator [sep = "/"] *)
Fixpoint split (s : string) : list string :=
  match s with
  | EmptyString => [EmptyString]
  | String c s' =>
      if Ascii.eqb c slash then EmptyString :: split s'
      else match split s' with
           | h :: t => String c h :: t
           | [] => [String c EmptyString]
           end
  end.

(** [parts[2] if len(parts) >= 4 else "unknown"] *)
Definition cam_id_of (topic : string) : string :=
  let parts := split topic in
  if (4 <=? length parts)%nat then default "unknown" (parts !! 2%nat)
  else "unknown".

(** [TOPIC_OUT_FMT], read as [str.format] reads it: literal text and
    replacement fields. The default is ["motion/device/{id}/class"]. *)
Inductive Segment :=
| Lit (text : string)
| Field (name : string).

Definition TOPIC_OUT_FMT_default : list Segment :=
  [Lit "motion/device/"; Field "id"; Lit "/class"].

(** [fmt.format(id=cam_id)]: a field other than [id] raises [KeyError]. *)
Fixpoint format (fmt : list Segment) (id : string) : result string :=
  match fmt with
  | [] => Ok EmptyString
  | Lit text :: fmt' =>
      match format fmt' id with
      | Ok rest => Ok (text +:+ rest)
      | Raised e => Raised e
      end
  | Field name :: fmt' =>
      if String.eqb name "id" then
        match format fmt' id with
        | Ok rest => Ok (id +:+ rest)
        | Raised e => Raised e
        end
      else Raised (KeyError name)
  end.

(** The OpenCV calls, by what they return or raise: [cv2.imdecode] on
    the bytes of the payload ([None] for data it cannot decode), and
    [cv2.cvtColor] followed by [face_cascade.detectMultiScale] on an
    image, as the number of faces found. *)
Record OpenCV := mkOpenCV {
  imdecode : bytes -> result (option (list (list Detector.Pixel)));
  detect_faces : list (list Detector.Pixel) -> result nat
}.

(** [classify_bgr] *)
Definition classify_bgr (cv : OpenCV)
    (img_bgr : option (list (list Detector.Pixel))) : result string :=
  match img_bgr with
  | None => Ok "unknown"
  | Some img =>
      if Server.size img =? 0 then Ok "unknown"
      else match detect_faces cv img with
           | Ok faces => Ok (if (0 <? faces)%nat then "person" else "unknown")
           | Raised e => Raised e
           end
  end.

(** [client.publish(out_topic, label, qos=1, retain=False)] *)
Record Publish := mkPublish {
  out_topic : string;
  label : string;
  qos : nat;
  retain : bool
}.

(** The body of the [try] block, up to and including the publish. *)
Definition try_body (cv : OpenCV) (fmt : list Segment) (msg : MQTTMessage)
    : result Publish :=
  let cam_id := cam_id_of (topic msg) in
  match imdecode cv (payload msg) with
  | Raised e => Raised e
  | Ok img =>
      match classify_bgr cv img with
      | Raised e => Raised e
      | Ok label =>
          match format fmt cam_id with
          | Raised e => Raised e
          | Ok out_topic =>
              Ok {| out_topic := out_topic; label := label;
                    qos := 1; retain := false |}
          end
      end
  end.

(** [on_message]: [except Exception] logs and returns. The result is what
    was published, and the error logged if any. *)
Definition on_message (cv : OpenCV) (fmt : list Segment) (msg : MQTTMessage)
    : list Publish * option Exception :=
  match try_body cv fmt msg with
  | Ok p => ([p], None)
  | Raised e => ([], Some e)
  end.

(** [client.loop_forever()] on the messages received: [on_message] is
    called for each in turn. *)
Fixpoint loop_forever (cv : OpenCV) (fmt : list Segment)
    (msgs : list MQTTMessage) : list Publish :=
  match msgs with
  | [] => []
  | msg :: msgs' => (on_message cv fmt msg).1 ++ loop_forever cv fmt msgs'
  end.

(** ** Vocabulary of the properties *)

(** No ["/"] in [s]. *)
Fixpoint no_slash (s : string) : bool :=
  match s with
  | EmptyString => true
  | String c s' => negb (Ascii.eqb c slash) && no_slash s'
  end.

(** An OpenCV for which [cv2.imdecode] raises on an empty buffer, as the
    library does ([!buf.empty()] is asserted), and which otherwise decodes
    nothing and finds no face. *)
Definition opencv_empty_raises : OpenCV :=
  {| imdecode := fun buf =>
       match buf with
       | [] => Raised cv2_error
       | _ => Ok None
       end;
     detect_faces := fun _ => Ok 0%nat |}.

Definition empty_image_message : MQTTMessage :=
  {| topic := "motion/device/cam1/image"; payload := [] |}.

Definition image_message : MQTTMessage :=
  {| topic := "motion/device/cam1/image"; payload := bytes_of "JPEG-1" |}.

End Mqtt.

(* ===================================================================== *)
(** * Traces of the detector: further vocabulary *)
(* ===================================================================== *)

Module Traces.
Import Detector.

(** The callback is [on_rise]. *)
Definition rising (e : Event) : bool :=
  match e with Rise _ => true | Fall => false end.

(** [alternates on tr]: the callbacks of [tr] take turns, and the first
    is [on_rise] when [on] is [false], [on_fall] when it is [true]. *)
Fixpoint alternates (on : bool) (tr : list Timed) : Prop :=
  match tr with
  | [] => True
  | (_, Rise _) :: tr' => on = false /\ alternates true tr'
  | (_, Fall) :: tr' => on = true /\ alternates false tr'
  end.

(** [dwell q r tr]: every fall of [tr] comes at least [q] after the rise
    before it, [r] being the instant of the rise before [tr]. *)
Fixpoint dwell (q r : Z) (tr : list Timed) : Prop :=
  match tr with
  | [] => True
  | (t, Rise _) :: tr' => dwell q t tr'
  | (t, Fall) :: tr' => q <= t - r /\ dwell q r tr'
  end.

(** The clock never runs backwards over the frames, from [t] on. *)
Fixpoint nondecreasing (t : Z) (frames : list FrameIn) : Prop :=
  match frames with
  | [] => True
  | f :: frames' => t <= now f /\ nondecreasing (now f) frames'
  end.

(** No contour of the frame is larger than the threshold. *)
Definition below_threshold (cfg : Config) (f : FrameIn) : Prop :=
  Forall (fun c => contourArea c <= min_contour_area cfg) (cnts f).

(** What the loop keeps between frames while the clock does not run
    backwards: both recorded instants lie in the past, and while the
    detector is active motion was last seen no earlier than the rise. *)
Definition in_order (s : State) (t : Z) : Prop :=
  last_rise_ts s <= t /\ last_motion_seen_ts s <= t /\
  (motion_on s = true -> last_rise_ts s <= last_motion_seen_ts s).

(** The settings of [run.py] with [quiet_sec = 0]. *)
Definition no_quiet : Config :=
  {| min_contour_area := 2500; pad_ratio := (12 # 100)%Q;
     cooldown := 1000; quiet := 0 |}.

(** Three contours: two of the same, largest area, and a smaller one. *)
Definition blob_a : Contour := mkContour 4000 (mkRect 0 0 2 2).
Definition blob_b : Contour := mkContour 4000 (mkRect 3 1 2 2).
Definition blob_c : Contour := mkContour 3000 (mkRect 1 1 1 1).

(** A rectangle that sticks out of [frame_4x6] on the right and below. *)
Definition overhang : Rect := mkRect 4 2 5 5.

End Traces.

(* ===================================================================== *)
(** * The parts put together: run.py, start_server and the client *)
(* ===================================================================== *)

Module System.

(** What the two external calls of [on_rise] give over a run:
    [cv2.imencode] as a function of the crop it is given, and the string
    [datetime.now().strftime(...)] returns at the [k]-th call of
    [on_rise], counted from 0. *)
Record Env := mkEnv {
  cv2_imencode : list (list Detector.Pixel) -> option bytes;
  strftime : nat -> string
}.

(** The [k]-th call of [on_rise], with the crop the detector passes. *)
Definition call_of (env : Env) (k : nat)
    (crop : option (list (list Detector.Pixel))) : Server.RiseCall :=
  {| Server.crop_bgr := crop;
     Server.imencode := crop ≫= cv2_imencode env;
     Server.strftime_now := strftime env k |}.

(** [start_server] hands [on_rise_factory(...)] and [on_fall_factory(...)]
    to [motion_detector_loop]: each callback invocation of the detector is
    a call of the closure, in the same order. *)
Fixpoint callbacks_of (env : Env) (k : nat) (tr : list Detector.Timed)
    : list Server.Op :=
  match tr with
  | [] => []
  | (_, Detector.Rise crop) :: tr' =>
      Server.OnRise (call_of env k crop) :: callbacks_of env (S k) tr'
  | (_, Detector.Fall) :: tr' => Server.OnFall :: callbacks_of env k tr'
  end.

(** [run.py]: the thread started by [start_server] runs [det.loop]. *)
Definition detector_thread (env : Env) (cfg : Detector.Config)
    (frames : list Detector.FrameIn) : list Server.Op :=
  callbacks_of env 0 (Detector.loop cfg frames).

(** The operations on the site that come from the detector thread, the
    PUTs of remote peers left out. *)
Definition is_PutClass (op : Server.Op) : bool :=
  match op with Server.PutClass _ => true | _ => false end.

Definition from_detector (ops : list Server.Op) : list Server.Op :=
  filter (fun op => is_PutClass op = false) ops.

(** A request of the classifier client arriving at the server: a PUT on
    [/class] is rendered by [ClassResource.render_put]; a GET changes
    nothing, and no other resource renders PUT. *)
Definition serve (st : Server.Site) (req : Classifier.Request) : Server.Site :=
  match req with
  | Classifier.PUT uri p =>
      if String.eqb uri Classifier.PATH_CLASS
      then (Server.put_class (Server.PUT p) st).1
      else st
  | Classifier.GET _ _ => st
  end.

(** ** Vocabulary of the properties *)


(** The client made this request while handling some notification. *)
Definition sent_by_client (req : Classifier.Request) : Prop :=
  exists d, req ∈ Classifier.handle_notification d.

(** What [motion] reads for a detector that is active or not. *)
Definition motion_bytes (on : bool) : bytes :=
  if on then bytes_of "true" else bytes_of "false".

(** Whether the detector is active after the callbacks of [tr], having
    been so or not ([on]) before them. *)
Fixpoint ends_active (on : bool) (tr : list Detector.Timed) : bool :=
  match tr with
  | [] => on
  | (_, Detector.Rise _) :: tr' => ends_active true tr'
  | (_, Detector.Fall) :: tr' => ends_active false tr'
  end.

(** The bytes the server stores for a callback of the detector, when it
    stores any: the encoding of the crop of a rise, if there is a crop, it
    is not empty and [cv2.imencode] succeeds on it. *)
Definition snapshot_of (env : Env) (e : Detector.Timed) : option bytes :=
  match e with
  | (_, Detector.Rise crop) =>
      crop ≫= fun c => if 0 <? Server.size c then cv2_imencode env c else None
  | (_, Detector.Fall) => None
  end.

(** An encoder that always succeeds, and a clock that counts seconds. *)
Definition plain_env : Env :=
  {| cv2_imencode := fun _ => Some (bytes_of "JPEG");
     strftime := fun k => if Nat.even k then "2025-01-01_10-00-00"
                          else "2025-01-01_10-00-05" |}.

Definition one_episode : list Detector.FrameIn :=
  [Detector.motion_frame 10000; Detector.still_frame 13000].

End System.

(* ===================================================================== *)
(** * Topics of the message bus: further vocabulary *)
(* ===================================================================== *)

Module Topics.
Import Mqtt.

(** The number of ["/"] in [s]. *)
Fixpoint count_slash (s : string) : nat :=
  match s with
  | EmptyString => 0
  | String c s' => (if Ascii.eqb c slash then 1 else 0) + count_slash s'
  end.

(** The format names a replacement field other than [id]. *)
Definition foreign (fmt : list Segment) : Prop :=
  Exists (fun seg =>
            match seg with
            | Field name => String.eqb name "id" = false
            | Lit _ => False
            end) fmt.

(** A format that asks for the device under another name. *)
Definition TOPIC_OUT_FMT_device : list Segment :=
  [Lit "motion/"; Field "device"; Lit "/class"].

End Topics.

(* ===================================================================== *)
(** * Properties of the edge detector *)
(* ===================================================================== *)

Module DetectorFacts.
Import Detector.

(** ** One iteration *)


Lemma step_unfold cfg s f :
  step cfg s f =
  let big := _largest_contour (cnts f) (min_contour_area cfg) in
  let r := rising_edge cfg f big (motion_now_of cfg f) (seen cfg s f) in
  let d := falling_edge cfg f (fst r) in
  (fst d, snd r ++ snd d).
Proof.
  unfold step, seen, motion_now_of. cbn zeta.
  destruct (rising_edge _ _ _ _ _) as [s2 rise]. cbn [fst snd].
  destruct (falling_edge _ _ _) as [s3 fall]. reflexivity.
Qed.

Lemma rise_guard_seen cfg s f :
  rises_at cfg s f =
  negb (motion_on s) && motion_now_of cfg f
    && (cooldown cfg <=? now f - last_rise_ts s).
Proof.
  unfold rises_at, seen, rise_guard, see_motion.
  destruct (motion_now_of cfg f); reflexivity.
Qed.

Lemma step_events cfg s f :
  exists crop,
    snd (step cfg s f) =
    (if rises_at cfg s f then [Rise crop] else [])
      ++ (if falls_at cfg s f then [Fall] else []).
Proof.
  rewrite step_unfold. cbn zeta. cbn [snd].
  unfold falls_at, rises_at, falling_edge.
  set (big := _largest_contour _ _).
  unfold rising_edge at 1.
  destruct (rise_guard _ _ _ _) eqn:Hr.
  - eexists. cbn [snd]. f_equal.
    destruct (fall_guard _ _ _); reflexivity.
  - exists None. cbn [snd]. f_equal.
    destruct (fall_guard _ _ _); reflexivity.
Qed.

Lemma step_last_rise cfg s f :
  last_rise_ts (fst (step cfg s f)) =
  if rises_at cfg s f then now f else last_rise_ts s.
Proof.
  rewrite step_unfold. cbn zeta. cbn [fst].
  unfold falling_edge, rising_edge, rises_at.
  destruct (rise_guard _ _ _ _) eqn:Hr; cbn [fst];
    destruct (fall_guard _ _ _); cbn [fst last_rise_ts]; try reflexivity;
    unfold seen, see_motion; destruct (motion_now_of cfg f); reflexivity.
Qed.

Lemma rise_times_app tr1 tr2 :
  rise_times (tr1 ++ tr2) = rise_times tr1 ++ rise_times tr2.
Proof. apply omap_app. Qed.

Lemma rise_times_step cfg s f :
  rise_times (pair (now f) <$> snd (step cfg s f)) =
  if rises_at cfg s f then [now f] else [].
Proof.
  destruct (step_events cfg s f) as [crop ->].
  destruct (rises_at cfg s f), (falls_at cfg s f); reflexivity.
Qed.

(** Membership in an explicit list, case by case. *)
Ltac elem_cases :=
  repeat match goal with
         | H : _ ∈ _ :: _ |- _ => apply elem_of_cons in H as [H|H]
         | H : _ ∈ [] |- _ => inversion H
         end;
  try discriminate.

Lemma Rise_in_step cfg s f :
  (exists crop, Rise crop ∈ snd (step cfg s f)) <-> rises_at cfg s f = true.
Proof.
  destruct (step_events cfg s f) as [crop ->].
  destruct (rises_at cfg s f), (falls_at cfg s f); cbn [app]; split;
    intros H; try reflexivity; try discriminate;
    try (exists crop; left); destruct H as [c Hc]; elem_cases.
Qed.

Lemma Fall_in_step cfg s f :
  Fall ∈ snd (step cfg s f) <-> falls_at cfg s f = true.
Proof.
  destruct (step_events cfg s f) as [crop ->].
  destruct (rises_at cfg s f), (falls_at cfg s f); cbn [app]; split;
    intros H; try reflexivity; try discriminate;
    try (repeat constructor); elem_cases.
Qed.

(** ** Spacing of the rises *)


Lemma loop_from_gaps cfg frames : forall s,
  gaps (cooldown cfg) (last_rise_ts s) (rise_times (loop_from cfg s frames)).
Proof.
  induction frames as [|f frames IH]; intros s; cbn [loop_from].
  - exact I.
  - rewrite rise_times_app, rise_times_step.
    specialize (IH (fst (step cfg s f))). rewrite step_last_rise in IH.
    destruct (rises_at cfg s f) eqn:Hr; cbn [app]; [|exact IH].
    split; [|exact IH].
    rewrite rise_guard_seen in Hr.
    apply andb_prop in Hr as [_ Hr]. lia.
Qed.

Lemma gaps_next c : forall l prev i t1 t2,
  gaps c prev l -> l !! i = Some t1 -> l !! S i = Some t2 -> c <= t2 - t1.
Proof.
  induction l as [|t l IH]; intros prev i t1 t2 Hg H1 H2; [discriminate|].
  destruct Hg as [_ Hg]. destruct i as [|i].
  - destruct l as [|t' l]; [discriminate|].
    cbn in H1, H2. injection H1 as <-. injection H2 as <-. apply Hg.
  - cbn in H1, H2. eapply IH; eauto.
Qed.

Lemma gaps_from c : forall l prev j t,
  0 <= c -> gaps c prev l -> l !! j = Some t -> c <= t - prev.
Proof.
  induction l as [|t0 l IH]; intros prev j t Hc Hg Hj; [discriminate|].
  destruct Hg as [H0 Hg]. destruct j as [|j].
  - cbn in Hj. injection Hj as <-. exact H0.
  - cbn in Hj. specialize (IH _ _ _ Hc Hg Hj). lia.
Qed.

Lemma gaps_any c : forall l prev i j t1 t2,
  0 <= c -> gaps c prev l -> (i < j)%nat ->
  l !! i = Some t1 -> l !! j = Some t2 -> c <= t2 - t1.
Proof.
  induction l as [|t l IH]; intros prev i j t1 t2 Hc Hg Hij H1 H2;
    [discriminate|].
  destruct Hg as [_ Hg]. destruct j as [|j]; [lia|]. destruct i as [|i].
  - cbn in H1, H2. injection H1 as <-. eapply gaps_from; eauto.
  - cbn in H1, H2. eapply (IH t i j); eauto. lia.
Qed.

(** C1. A rise is announced on an iteration exactly when the detector is
    quiet, [motion_now] holds and [now - last_rise_ts >= cooldown]; the
    iteration then records [last_rise_ts = now]. Hence, in the trace of
    any run of [loop], every rise comes at least [cooldown] after the rise
    before it, and (for a non-negative [cooldown]) at least [cooldown]
    after every earlier rise. *)
Theorem rise_cooldown (cfg : Config) :
  (forall s f,
      (exists crop, Rise crop ∈ snd (step cfg s f)) <->
      motion_on s = false /\ motion_now_of cfg f = true /\
      cooldown cfg <= now f - last_rise_ts s) /\
  (forall s f crop,
      Rise crop ∈ snd (step cfg s f) ->
      last_rise_ts (fst (step cfg s f)) = now f) /\
  (forall frames i t1 t2,
      rise_times (loop cfg frames) !! i = Some t1 ->
      rise_times (loop cfg frames) !! S i = Some t2 ->
      cooldown cfg <= t2 - t1) /\
  (0 <= cooldown cfg ->
   forall frames i j t1 t2,
      (i < j)%nat ->
      rise_times (loop cfg frames) !! i = Some t1 ->
      rise_times (loop cfg frames) !! j = Some t2 ->
      cooldown cfg <= t2 - t1).
Proof.
  split; [|split; [|split]].
  - intros s f. rewrite Rise_in_step, rise_guard_seen.
    rewrite !andb_true_iff, negb_true_iff, Z.leb_le. tauto.
  - intros s f crop Hin. rewrite step_last_rise.
    assert (Hr : rises_at cfg s f = true) by (apply Rise_in_step; eauto).
    rewrite Hr. reflexivity.
  - intros frames i t1 t2. apply gaps_next with (prev := last_rise_ts init).
    apply loop_from_gaps.
  - intros Hc frames i j t1 t2.
    apply gaps_any with (prev := last_rise_ts init); [exact Hc|].
    apply loop_from_gaps.
Qed.

(** ** Falling edge *)


Lemma state_from_app cfg frames1 frames2 : forall s,
  state_from cfg s (frames1 ++ frames2) =
  state_from cfg (state_from cfg s frames1) frames2.
Proof. induction frames1 as [|f fs IH]; intros s; [reflexivity|apply IH]. Qed.

Lemma loop_from_app cfg frames1 frames2 : forall s,
  loop_from cfg s (frames1 ++ frames2) =
  loop_from cfg s frames1 ++ loop_from cfg (state_from cfg s frames1) frames2.
Proof.
  induction frames1 as [|f fs IH]; intros s; [reflexivity|].
  cbn [app loop_from state_from]. rewrite IH, app_assoc. reflexivity.
Qed.

Lemma loop_snoc cfg frames f :
  loop cfg (frames ++ [f]) =
  loop cfg frames ++ (pair (now f) <$> snd (step cfg (state_after cfg frames) f)).
Proof.
  unfold loop, state_after. rewrite loop_from_app. cbn [loop_from].
  rewrite app_nil_r. reflexivity.
Qed.

Lemma state_snoc cfg frames f :
  state_after cfg (frames ++ [f]) = fst (step cfg (state_after cfg frames) f).
Proof. unfold state_after. rewrite state_from_app. reflexivity. Qed.

Lemma falls_at_eq cfg s f :
  falls_at cfg s f =
  (rises_at cfg s f || motion_on s)
    && (quiet cfg <=? now f -
          (if motion_now_of cfg f then now f else last_motion_seen_ts s)).
Proof.
  unfold falls_at, rising_edge. fold (rises_at cfg s f).
  destruct (rises_at cfg s f) eqn:Hr; cbn [fst]; unfold fall_guard;
    cbn [motion_on last_motion_seen_ts orb];
    unfold seen, see_motion; destruct (motion_now_of cfg f); reflexivity.
Qed.

Lemma step_motion_on cfg s f :
  motion_on (fst (step cfg s f)) =
  if falls_at cfg s f then false
  else if rises_at cfg s f then true else motion_on s.
Proof.
  rewrite step_unfold. cbn zeta. cbn [fst].
  unfold falling_edge. fold (falls_at cfg s f).
  destruct (falls_at cfg s f); cbn [fst motion_on]; [reflexivity|].
  unfold rising_edge. fold (rises_at cfg s f).
  destruct (rises_at cfg s f); cbn [fst motion_on]; [reflexivity|].
  unfold seen, see_motion. destruct (motion_now_of cfg f); reflexivity.
Qed.

Lemma step_last_seen cfg s f :
  last_motion_seen_ts (fst (step cfg s f)) =
  if motion_now_of cfg f then now f else last_motion_seen_ts s.
Proof.
  rewrite step_unfold. cbn zeta. cbn [fst].
  unfold falling_edge, rising_edge.
  destruct (fall_guard _ _ _); cbn [fst last_motion_seen_ts];
    destruct (rise_guard _ _ _ _); cbn [fst last_motion_seen_ts];
    unfold seen, see_motion; destruct (motion_now_of cfg f); reflexivity.
Qed.

Lemma last_motion_snoc cfg frames f :
  last_motion_ts cfg (frames ++ [f]) =
  if motion_now_of cfg f then now f else last_motion_ts cfg frames.
Proof.
  unfold last_motion_ts. rewrite filter_app, fmap_app.
  destruct (motion_now_of cfg f) eqn:Hm.
  - rewrite filter_cons_True by exact Hm. cbn [filter fmap].
    rewrite filter_nil. cbn. rewrite last_snoc. reflexivity.
  - rewrite filter_cons_False by (rewrite Hm; discriminate).
    rewrite filter_nil. cbn. rewrite app_nil_r. reflexivity.
Qed.

Lemma last_seen_after cfg frames :
  last_motion_seen_ts (state_after cfg frames) = last_motion_ts cfg frames.
Proof.
  induction frames as [|f frames IH] using rev_ind; [reflexivity|].
  rewrite state_snoc, step_last_seen, last_motion_snoc, IH. reflexivity.
Qed.

Lemma active_after_step cfg tr s f :
  active_after (tr ++ (pair (now f) <$> snd (step cfg s f))) =
  if falls_at cfg s f then false
  else if rises_at cfg s f then true else active_after tr.
Proof.
  destruct (step_events cfg s f) as [crop ->].
  unfold active_after.
  rewrite last_app.
  destruct (rises_at cfg s f), (falls_at cfg s f); reflexivity.
Qed.

Lemma motion_on_after cfg frames :
  motion_on (state_after cfg frames) = active_after (loop cfg frames).
Proof.
  induction frames as [|f frames IH] using rev_ind; [reflexivity|].
  rewrite state_snoc, loop_snoc, step_motion_on, active_after_step, IH.
  reflexivity.
Qed.

(** C2. [last_motion_seen_ts] always holds the instant of the last frame
    on which [motion_now] held, whatever the state was. On every iteration
    [on_fall] is called exactly when the detector is active at the falling
    test (a rise was announced, on this iteration or before, and no fall
    since) and at least [quiet] has passed since that last motion frame.
    The rise time plays no part: there is a run, with the settings of
    [run.py], in which the detector is active more than [quiet] after its
    rise and does not fall. *)
Theorem fall_after_quiet (cfg : Config) :
  (forall frames,
      last_motion_seen_ts (state_after cfg frames) = last_motion_ts cfg frames) /\
  (forall frames f,
      let evs := snd (step cfg (state_after cfg frames) f) in
      Fall ∈ evs <->
      ((exists crop, Rise crop ∈ evs) \/ active_after (loop cfg frames) = true) /\
      quiet cfg <= now f - last_motion_ts cfg (frames ++ [f])) /\
  (exists frames f,
      active_after (loop run_py frames) = true /\
      quiet run_py <= now f - last_rise_ts (state_after run_py frames) /\
      ~ Fall ∈ snd (step run_py (state_after run_py frames) f)).
Proof.
  split; [exact (last_seen_after cfg)|split].
  - intros frames f evs. subst evs.
    rewrite Fall_in_step, Rise_in_step, falls_at_eq, last_motion_snoc.
    rewrite <- motion_on_after, <- last_seen_after.
    rewrite andb_true_iff, orb_true_iff, Z.leb_le. tauto.
  - exists [motion_frame 10000; motion_frame 12500], (still_frame 13200).
    split; [reflexivity|]. split; [vm_compute; discriminate|].
    rewrite Fall_in_step. vm_compute. discriminate.
Qed.

(** ** The crop handed to [on_rise] *)


Lemma largest_from_spec m cnts : forall best ba,
  (largest_from best ba cnts m = best /\
   forall c, c ∈ cnts -> ~ (m < contourArea c /\ ba < contourArea c)) \/
  (exists c, largest_from best ba cnts m = Some c /\ c ∈ cnts /\
     m < contourArea c /\ ba < contourArea c /\
     forall c', c' ∈ cnts -> m < contourArea c' ->
       contourArea c' <= contourArea c).
Proof.
  induction cnts as [|c0 rest IH]; intros best ba; cbn [largest_from].
  - left. split; [reflexivity|]. intros c Hc. inversion Hc.
  - destruct ((m <? contourArea c0) && (ba <? contourArea c0)) eqn:Hq.
    + apply andb_prop in Hq as [Hm Hb].
      apply Z.ltb_lt in Hm. apply Z.ltb_lt in Hb. right.
      destruct (IH (Some c0) (contourArea c0))
        as [[-> Hnone]|(c & -> & Hin & Hcm & Hcb & Hmax)].
      * exists c0. repeat split; try assumption; [left|].
        intros c' Hc' Hm'. apply elem_of_cons in Hc' as [->|Hc']; [lia|].
        specialize (Hnone c' Hc'). lia.
      * exists c. repeat split; try assumption; [right; assumption|lia|].
        intros c' Hc' Hm'. apply elem_of_cons in Hc' as [->|Hc']; [lia|].
        apply Hmax; assumption.
    + assert (Hq' : ~ (m < contourArea c0 /\ ba < contourArea c0)).
      { intros [Hm Hb]. apply Z.ltb_lt in Hm. apply Z.ltb_lt in Hb.
        rewrite Hm, Hb in Hq. discriminate. }
      destruct (IH best ba) as [[-> Hnone]|(c & -> & Hin & Hcm & Hcb & Hmax)].
      * left. split; [reflexivity|].
        intros c Hc. apply elem_of_cons in Hc as [->|Hc]; auto.
      * right. exists c. repeat split; try assumption; [right; assumption|].
        intros c' Hc' Hm'. apply elem_of_cons in Hc' as [->|Hc']; [lia|].
        apply Hmax; assumption.
Qed.

Lemma largest_contour_Some cnts m c :
  _largest_contour cnts m = Some c ->
  c ∈ cnts /\ qualifies m c /\
  forall c', c' ∈ cnts -> qualifies m c' -> contourArea c' <= contourArea c.
Proof.
  unfold _largest_contour, qualifies. intros H.
  destruct (largest_from_spec m cnts None 0)
    as [[Hn _]|(c1 & Hs & Hin & Hm & Hb & Hmax)]; [congruence|].
  assert (c1 = c) as -> by congruence.
  repeat split; try assumption. intros c' Hc' [Hm' _]. auto.
Qed.

Lemma largest_contour_None cnts m :
  _largest_contour cnts m = None <-> forall c, c ∈ cnts -> ~ qualifies m c.
Proof.
  unfold _largest_contour, qualifies. split.
  - intros H.
    destruct (largest_from_spec m cnts None 0)
      as [[_ Hn]|(c1 & Hs & _)]; [exact Hn|congruence].
  - intros Hn.
    destruct (largest_from_spec m cnts None 0)
      as [[Hs _]|(c1 & Hs & Hin & Hm & Hb & _)]; [exact Hs|].
    exfalso. apply (Hn c1 Hin). split; assumption.
Qed.

Lemma motion_now_iff cfg f :
  motion_now_of cfg f = true <->
  exists c, c ∈ cnts f /\ qualifies (min_contour_area cfg) c.
Proof.
  unfold motion_now_of.
  destruct (_largest_contour (cnts f) (min_contour_area cfg)) as [c|] eqn:Hl.
  - apply largest_contour_Some in Hl as (Hin & Hq & _).
    split; [eauto|reflexivity].
  - split; [discriminate|]. intros (c & Hin & Hq). exfalso.
    exact (proj1 (largest_contour_None _ _) Hl c Hin Hq).
Qed.

Lemma Rise_crop_step cfg s f crop :
  Rise crop ∈ snd (step cfg s f) ->
  exists c,
    _largest_contour (cnts f) (min_contour_area cfg) = Some c /\
    crop = Some (fst (_crop_with_pad cfg (frame f) (boundingRect c))).
Proof.
  rewrite step_unfold. cbn zeta. cbn [snd].
  rewrite elem_of_app. intros [Hin|Hin].
  - unfold rising_edge in Hin.
    destruct (rise_guard _ _ _ _) eqn:Hg; cbn [snd] in Hin;
      [|inversion Hin].
    unfold rise_guard, motion_now_of in Hg.
    destruct (_largest_contour (cnts f) (min_contour_area cfg)) as [c|];
      cbn [is_not_None] in Hg.
    + exists c. split; [reflexivity|].
      apply list_elem_of_singleton in Hin. congruence.
    + rewrite andb_false_r in Hg. discriminate.
  - unfold falling_edge in Hin.
    destruct (fall_guard _ _ _); cbn [snd] in Hin; [|inversion Hin].
    apply list_elem_of_singleton in Hin. discriminate.
Qed.

Lemma loop_from_elem cfg frames : forall s t e,
  (t, e) ∈ loop_from cfg s frames ->
  exists s' f, f ∈ frames /\ t = now f /\ e ∈ snd (step cfg s' f).
Proof.
  induction frames as [|f frames IH]; intros s t e Hin; cbn [loop_from] in Hin.
  - inversion Hin.
  - apply elem_of_app in Hin as [Hin|Hin].
    + apply list_elem_of_fmap in Hin as (e' & Heq & Hin).
      injection Heq as -> ->. exists s, f. split; [left|auto].
    + destruct (IH _ _ _ Hin) as (s' & f' & Hf & Ht & He).
      exists s', f'. split; [right; assumption|auto].
Qed.

(** Slices with bounds in range. *)
Lemma py_slice_in_range {A} (l : list A) (a b : Z) :
  0 <= a <= b -> b <= Z.of_nat (length l) ->
  py_slice l a b = take (Z.to_nat (b - a)) (drop (Z.to_nat a) l).
Proof.
  intros Hab Hb. unfold py_slice, slice_index.
  destruct (a <? 0) eqn:Ha; [apply Z.ltb_lt in Ha; lia|].
  destruct (b <? 0) eqn:Hb0; [apply Z.ltb_lt in Hb0; lia|].
  rewrite !Z.min_l by lia. reflexivity.
Qed.

Lemma py_slice_length {A} (l : list A) (a b : Z) :
  0 <= a <= b -> b <= Z.of_nat (length l) ->
  Z.of_nat (length (py_slice l a b)) = b - a.
Proof.
  intros Hab Hb. rewrite py_slice_in_range by assumption.
  rewrite length_take, length_drop. lia.
Qed.

Lemma py_slice_lookup {A} (l : list A) (a b : Z) (i : nat) :
  0 <= a <= b -> b <= Z.of_nat (length l) -> Z.of_nat i < b - a ->
  py_slice l a b !! i = l !! (Z.to_nat a + i)%nat.
Proof.
  intros Hab Hb Hi. rewrite py_slice_in_range by assumption.
  rewrite lookup_take_lt by lia. apply lookup_drop.
Qed.

Lemma pad_of_nonneg cfg w h :
  0 <= Qnum (pad_ratio cfg) -> 0 <= Z.max w h -> 0 <= pad_of cfg w h.
Proof.
  intros Hr Hm. unfold pad_of. apply Z.quot_pos; [|lia].
  apply Z.mul_nonneg_nonneg; assumption.
Qed.

Lemma crop_with_pad_spec cfg frame rect :
  rectangular frame -> within frame rect ->
  0 <= pad_of cfg (rw rect) (rh rect) ->
  let '(crop, (x0, y0, x1, y1)) := _crop_with_pad cfg frame rect in
  (0 <= x0 <= x1 /\ x1 <= shape_W frame) /\
  (0 <= y0 <= y1 /\ y1 <= shape_H frame) /\
  x0 <= rx rect /\ rx rect + rw rect <= x1 /\
  y0 <= ry rect /\ ry rect + rh rect <= y1 /\
  shape_H crop = y1 - y0 /\
  Forall (fun row => Z.of_nat (length row) = x1 - x0) crop /\
  forall i j : nat, Z.of_nat i < y1 - y0 -> Z.of_nat j < x1 - x0 ->
    pixel crop i j = pixel frame (Z.to_nat y0 + i) (Z.to_nat x0 + j).
Proof.
  intros Hrect (Hx & Hy & Hw & Hh & HxW & HyH) Hpad.
  unfold _crop_with_pad. cbn zeta.
  set (pad := pad_of cfg (rw rect) (rh rect)) in *.
  set (x0 := Z.max 0 (rx rect - pad)).
  set (y0 := Z.max 0 (ry rect - pad)).
  set (x1 := Z.min (shape_W frame) (rx rect + rw rect + pad)).
  set (y1 := Z.min (shape_H frame) (ry rect + rh rect + pad)).
  assert (Hxs : 0 <= x0 <= x1 /\ x1 <= shape_W frame) by lia.
  assert (Hys : 0 <= y0 <= y1 /\ y1 <= shape_H frame) by lia.
  assert (Hrows : Forall (fun row => Z.of_nat (length row) = shape_W frame)
                    (py_slice frame y0 y1)).
  { rewrite py_slice_in_range by (unfold shape_H in Hys; lia).
    apply Forall_take, Forall_drop, Hrect. }
  repeat split; try lia.
  - unfold slice2d, shape_H. rewrite length_fmap.
    apply py_slice_length; unfold shape_H in Hys; lia.
  - unfold slice2d. apply Forall_fmap.
    eapply Forall_impl; [exact Hrows|].
    intros row Hlen. cbn beta in *. apply py_slice_length; lia.
  - intros i j Hi Hj. unfold pixel, slice2d.
    rewrite list_lookup_fmap.
    rewrite py_slice_lookup by (unfold shape_H in Hys; lia).
    destruct (frame !! (Z.to_nat y0 + i)%nat) as [row|] eqn:Hrow;
      [|reflexivity].
    cbn. apply py_slice_lookup; try lia.
    apply list_elem_of_lookup_2 in Hrow.
    rewrite (proj1 (Forall_forall _ _) Hrect row Hrow). lia.
Qed.

(** C10. Every [on_rise] call made by [loop] carries a crop: the rise
    guard needs [motion_now], which holds exactly when some contour
    qualifies, and then [_largest_contour] returns a qualifying contour of
    largest area, whose padded bounding rectangle is cropped. For a
    rectangle within the frame and a non-negative pad, [_crop_with_pad]
    returns corners with [0 <= x0 <= x1 <= W] and [0 <= y0 <= y1 <= H]
    that enclose the rectangle, and the crop is exactly that window of
    the frame: [y1 - y0] rows of [x1 - x0] pixels, pixel for pixel. *)
Theorem rise_crop_well_formed (cfg : Config) :
  (forall frames t crop,
      (t, Rise crop) ∈ loop cfg frames ->
      exists f c,
        f ∈ frames /\ t = now f /\
        _largest_contour (cnts f) (min_contour_area cfg) = Some c /\
        crop = Some (fst (_crop_with_pad cfg (frame f) (boundingRect c)))) /\
  (forall f,
      motion_now_of cfg f = true <->
      exists c, c ∈ cnts f /\ qualifies (min_contour_area cfg) c) /\
  (forall cnts c,
      _largest_contour cnts (min_contour_area cfg) = Some c ->
      c ∈ cnts /\ qualifies (min_contour_area cfg) c /\
      forall c', c' ∈ cnts -> qualifies (min_contour_area cfg) c' ->
        contourArea c' <= contourArea c) /\
  (forall frame rect,
      rectangular frame -> within frame rect ->
      0 <= pad_of cfg (rw rect) (rh rect) ->
      let '(crop, (x0, y0, x1, y1)) := _crop_with_pad cfg frame rect in
      (0 <= x0 <= x1 /\ x1 <= shape_W frame) /\
      (0 <= y0 <= y1 /\ y1 <= shape_H frame) /\
      x0 <= rx rect /\ rx rect + rw rect <= x1 /\
      y0 <= ry rect /\ ry rect + rh rect <= y1 /\
      shape_H crop = y1 - y0 /\
      Forall (fun row => Z.of_nat (length row) = x1 - x0) crop /\
      forall i j : nat, Z.of_nat i < y1 - y0 -> Z.of_nat j < x1 - x0 ->
        pixel crop i j = pixel frame (Z.to_nat y0 + i) (Z.to_nat x0 + j)).
Proof.
  split; [|split; [|split]].
  - intros frames t crop Hin.
    apply loop_from_elem in Hin as (s' & f & Hf & Ht & He).
    apply Rise_crop_step in He as (c & Hbig & Hcrop).
    exists f, c. auto.
  - apply motion_now_iff.
  - intros cnts c. apply largest_contour_Some.
  - apply crop_with_pad_spec.
Qed.

(** ** Runs on concrete frames *)

(** Motion at 10.0 s, gone at 10.5 s, back at 11.2 s, gone for good: one
    rise at 10.0 s (the detector is still active at 11.2 s) and one fall
    at the first frame 3 s or more after 11.2 s. *)
Example run_one_episode :
  loop run_py [motion_frame 10000; still_frame 10500; motion_frame 11200;
               still_frame 13000; still_frame 14199; still_frame 14200;
               still_frame 15000] =
  [(10000, Rise (Some (replicate 2 (replicate 3 black)))); (14200, Fall)].
Proof. vm_compute. reflexivity. Qed.

(** Without any contour nothing is ever announced. *)
Example run_no_motion :
  loop run_py [still_frame 10000; still_frame 20000; still_frame 30000] = [].
Proof. vm_compute. reflexivity. Qed.

Lemma rise_cooldown_witness :
  0 <= cooldown run_py /\
  rise_times (loop run_py [motion_frame 10000; still_frame 13000;
                           motion_frame 13500]) = [10000; 13500] /\
  cooldown run_py <= 13500 - 10000.
Proof.
  assert (Hc : 0 <= cooldown run_py) by (cbn; lia).
  split; [exact Hc|]. split; [reflexivity|].
  exact (proj2 (proj2 (proj2 (rise_cooldown run_py))) Hc
           [motion_frame 10000; still_frame 13000; motion_frame 13500]
           0%nat 1%nat 10000 13500 (Nat.lt_0_succ 0) eq_refl eq_refl).
Defined.

Lemma fall_after_quiet_witness :
  active_after (loop run_py [motion_frame 10000]) = true /\
  quiet run_py <=
    13000 - last_motion_ts run_py [motion_frame 10000; still_frame 13000] /\
  Fall ∈ snd (step run_py (state_after run_py [motion_frame 10000])
                (still_frame 13000)).
Proof.
  assert (Ha : active_after (loop run_py [motion_frame 10000]) = true)
    by reflexivity.
  assert (Hq : quiet run_py <=
               13000 - last_motion_ts run_py
                         [motion_frame 10000; still_frame 13000])
    by (vm_compute; discriminate).
  split; [exact Ha|]. split; [exact Hq|].
  exact (proj2 (proj1 (proj2 (fall_after_quiet run_py))
                  [motion_frame 10000] (still_frame 13000))
           (conj (or_intror Ha) Hq)).
Defined.

Lemma rise_crop_well_formed_witness :
  rectangular frame_4x6 /\ within frame_4x6 (boundingRect blob) /\
  0 <= pad_of wide_pad 3 2 /\
  _crop_with_pad wide_pad frame_4x6 (boundingRect blob) =
    (replicate 4 (replicate 5 black), (1, 0, 6, 4)) /\
  shape_H (_crop_with_pad wide_pad frame_4x6 (boundingRect blob)).1 = 4 - 0.
Proof.
  assert (Hr : rectangular frame_4x6) by (repeat constructor).
  assert (Hw : within frame_4x6 (boundingRect blob))
    by (unfold within; repeat split; vm_compute; discriminate).
  assert (Hp : 0 <= pad_of wide_pad (rw (boundingRect blob))
                      (rh (boundingRect blob)))
    by (vm_compute; discriminate).
  split; [exact Hr|]. split; [exact Hw|]. split; [exact Hp|].
  split; [reflexivity|].
  pose proof (proj2 (proj2 (proj2 (rise_crop_well_formed wide_pad)))
                frame_4x6 (boundingRect blob) Hr Hw Hp) as H.
  destruct (_crop_with_pad wide_pad frame_4x6 (boundingRect blob))
    as [crop [[[x0 y0] x1] y1]] eqn:E.
  injection E as <- <- <- <- <-.
  exact (proj1 (proj2 (proj2 (proj2 (proj2 (proj2 (proj2 H))))))).
Defined.

End DetectorFacts.

(* ===================================================================== *)
(** * Properties of the resources *)
(* ===================================================================== *)

Module ServerFacts.
Import Server.

(** ** Notifications of one change *)

Lemma notified_absent p n (l : list nat) :
  p ∉ l -> notified p ((fun q => mkNotification q n) <$> l) = 0%nat.
Proof.
  unfold notified. induction l as [|q l IH]; intros Hp; [reflexivity|].
  apply not_elem_of_cons in Hp as [Hne Hp]. cbn [fmap list_fmap].
  rewrite filter_cons_False by (cbn; congruence). apply IH, Hp.
Qed.

Lemma notified_NoDup p n (l : list nat) :
  NoDup l -> (notified p ((fun q => mkNotification q n) <$> l) <= 1)%nat.
Proof.
  induction 1 as [|q l Hq Hnd IH]; [cbn; lia|].
  unfold notified in *. cbn [fmap list_fmap].
  destruct (decide (q = p)) as [->|Hne].
  - rewrite filter_cons_True by reflexivity. cbn [length].
    pose proof (notified_absent p n l Hq) as H0. unfold notified in H0.
    rewrite H0. lia.
  - rewrite filter_cons_False by (cbn; congruence). exact IH.
Qed.

Lemma updated_state_once o p : (notified p (updated_state o).2 <= 1)%nat.
Proof. apply notified_NoDup, NoDup_elements. Qed.

(** ** The three setters *)

Lemma set_same r v : motion r = v -> set v r = (r, []).
Proof. intros H. unfold set. rewrite decide_False by tauto. reflexivity. Qed.

Lemma set_stores r v : motion (set v r).1 = v.
Proof.
  unfold set. destruct (decide (motion r ≠ v)) as [Hne|He]; [reflexivity|].
  cbn. destruct (decide (motion r = v)); tauto.
Qed.

Lemma set_now_same r s : ts r = encode s -> set_now s r = (r, []).
Proof.
  intros H. unfold set_now. rewrite decide_False by (rewrite H; tauto).
  reflexivity.
Qed.

Lemma set_now_stores r s : ts (set_now s r).1 = encode s.
Proof.
  unfold set_now. destruct (decide (encode s ≠ ts r)) as [Hne|He];
    [reflexivity|].
  cbn. destruct (decide (encode s = ts r)); [congruence|tauto].
Qed.

Lemma render_put_same request r :
  label r = strip (or_empty (payload request)) ->
  render_put request r = (r, [], changed_ok).
Proof.
  intros H. unfold render_put. cbn zeta.
  rewrite decide_False by (rewrite H; tauto). reflexivity.
Qed.

Lemma render_put_stores request r :
  label (render_put request r).1.1 = strip (or_empty (payload request)).
Proof.
  unfold render_put. cbn zeta.
  destruct (decide (_ ≠ label r)) as [Hne|He]; [reflexivity|].
  cbn. destruct (decide (strip (or_empty (payload request)) = label r));
    [congruence|tauto].
Qed.

Lemma render_put_response request r :
  (render_put request r).2 = changed_ok.
Proof.
  unfold render_put. cbn zeta. destruct (decide _); reflexivity.
Qed.

(** C3. For [motion], [lastDetection] and [class] alike, writing the
    value the resource already holds changes nothing: the resource,
    sequence included, is returned as it was and no notification is
    scheduled. Writing the same value twice in a row makes the second
    write such a no-op, so the sequence grows by at most one over the two
    writes and every observer gets at most one notification. *)
Theorem unchanged_write_is_noop :
  (forall r v, motion r = v -> set v r = (r, [])) /\
  (forall r s, ts r = encode s -> set_now s r = (r, [])) /\
  (forall r request,
      label r = strip (or_empty (payload request)) ->
      (render_put request r).1 = (r, [])) /\
  (forall r v,
      let '(r1, n1) := set v r in
      let '(r2, n2) := set v r1 in
      r2 = r1 /\ n2 = [] /\
      (sequence (motion_obs r2) <= S (sequence (motion_obs r)))%nat /\
      forall p, (notified p (n1 ++ n2) <= 1)%nat) /\
  (forall r s,
      let '(r1, n1) := set_now s r in
      let '(r2, n2) := set_now s r1 in
      r2 = r1 /\ n2 = [] /\
      (sequence (last_obs r2) <= S (sequence (last_obs r)))%nat /\
      forall p, (notified p (n1 ++ n2) <= 1)%nat) /\
  (forall r request,
      let '(r1, n1, _) := render_put request r in
      let '(r2, n2, _) := render_put request r1 in
      r2 = r1 /\ n2 = [] /\
      (sequence (class_obs r2) <= S (sequence (class_obs r)))%nat /\
      forall p, (notified p (n1 ++ n2) <= 1)%nat).
Proof.
  split; [exact set_same|]. split; [exact set_now_same|].
  split; [intros r request H; rewrite render_put_same by exact H; reflexivity|].
  split; [|split].
  - intros r v.
    pose proof (set_stores r v) as Hst.
    destruct (set v r) as [r1 n1] eqn:E1. cbn [fst] in Hst.
    rewrite (set_same r1 v Hst). repeat split.
    + unfold set in E1. destruct (decide (motion r ≠ v));
        injection E1 as <- <-; cbn; lia.
    + intros p. rewrite app_nil_r. unfold set in E1.
      destruct (decide (motion r ≠ v)); injection E1 as <- <-.
      * apply updated_state_once.
      * cbn. lia.
  - intros r s.
    pose proof (set_now_stores r s) as Hst.
    destruct (set_now s r) as [r1 n1] eqn:E1. cbn [fst] in Hst.
    rewrite (set_now_same r1 s Hst). repeat split.
    + unfold set_now in E1. destruct (decide (encode s ≠ ts r));
        injection E1 as <- <-; cbn; lia.
    + intros p. rewrite app_nil_r. unfold set_now in E1.
      destruct (decide (encode s ≠ ts r)); injection E1 as <- <-.
      * apply updated_state_once.
      * cbn. lia.
  - intros r request.
    pose proof (render_put_stores request r) as Hst.
    destruct (render_put request r) as [[r1 n1] m1] eqn:E1. cbn [fst] in Hst.
    rewrite (render_put_same request r1 Hst). repeat split.
    + unfold render_put in E1. cbn zeta in E1.
      destruct (decide (_ ≠ label r)); injection E1 as <- <- <-; cbn; lia.
    + intros p. rewrite app_nil_r. unfold render_put in E1. cbn zeta in E1.
      destruct (decide (_ ≠ label r)); injection E1 as <- <- <-.
      * apply updated_state_once.
      * cbn. lia.
Qed.

(** ** Encoding *)

Lemma valid_utf8_encode_char a l :
  valid_utf8 (encode_char a ++ l) = valid_utf8 l.
Proof. destruct a as [[] [] [] [] [] [] [] []]; reflexivity. Qed.

(** What [str.encode()] produces, [bytes.decode()] accepts. *)
Lemma valid_utf8_encode s : valid_utf8 (encode s) = true.
Proof.
  induction s as [|a s IH]; [reflexivity|].
  cbn [encode]. rewrite valid_utf8_encode_char. exact IH.
Qed.

Lemma unchanged_write_is_noop_witness :
  motion (motion_res fresh_site) = bytes_of "false" /\
  set (bytes_of "false") (motion_res fresh_site) = (motion_res fresh_site, []).
Proof.
  assert (H : motion (motion_res fresh_site) = bytes_of "false") by reflexivity.
  split; [exact H|].
  exact (proj1 unchanged_write_is_noop (motion_res fresh_site) _ H).
Defined.

(** ** Trimming *)

Lemma lstrip_split l : exists pre, l = pre ++ lstrip l /\ spaces pre.
Proof.
  induction l as [|b l (pre & IH & Hpre)]; [exists []; split; [reflexivity|constructor]|].
  cbn [lstrip]. destruct (is_space b) eqn:Hb.
  - exists (b :: pre). split; [cbn; congruence|constructor; assumption].
  - exists []. split; [reflexivity|constructor].
Qed.

Lemma lstrip_head l b : head (lstrip l) = Some b -> is_space b = false.
Proof.
  induction l as [|b0 l IH]; [discriminate|]. cbn [lstrip].
  destruct (is_space b0) eqn:Hb; [exact IH|].
  cbn. intros [= <-]. exact Hb.
Qed.

Lemma rstrip_split l : exists post, l = rstrip l ++ post /\ spaces post.
Proof.
  destruct (lstrip_split (reverse l)) as (pre & Hl & Hpre).
  exists (reverse pre). split; [|apply Forall_reverse, Hpre].
  unfold rstrip. rewrite <- reverse_app, <- Hl, reverse_involutive.
  reflexivity.
Qed.

Lemma rstrip_last l b : last (rstrip l) = Some b -> is_space b = false.
Proof. unfold rstrip. rewrite last_reverse. apply lstrip_head. Qed.

Lemma strip_spec p :
  exists pre post,
    p = pre ++ strip p ++ post /\ spaces pre /\ spaces post /\
    (forall b, head (strip p) = Some b -> is_space b = false) /\
    (forall b, last (strip p) = Some b -> is_space b = false).
Proof.
  destruct (lstrip_split p) as (pre & Hp & Hpre).
  destruct (rstrip_split (lstrip p)) as (post & Hm & Hpost).
  exists pre, post. unfold strip. repeat split; try assumption.
  - rewrite <- Hm. exact Hp.
  - intros b Hb. apply (lstrip_head p). rewrite Hm.
    destruct (rstrip (lstrip p)); [discriminate|exact Hb].
  - apply rstrip_last.
Qed.

(** C7. A PUT on [class] stores the payload with the ASCII whitespace at
    both ends removed, whatever was stored before ([" person "] gives
    ["person"]); the response is always [2.04 Changed] with body ["ok"],
    which no GET response of the resource equals; and when the trimmed
    payload is the stored label, the resource is left as it was, nothing
    is notified, and the response is the same acknowledgement. *)
Theorem put_trims_and_acknowledges :
  (forall request r,
      label (render_put request r).1.1 = strip (or_empty (payload request))) /\
  (forall p,
      exists pre post,
        p = pre ++ strip p ++ post /\ spaces pre /\ spaces post /\
        (forall b, head (strip p) = Some b -> is_space b = false) /\
        (forall b, last (strip p) = Some b -> is_space b = false)) /\
  (forall r,
      label (render_put (PUT (bytes_of " person ")) r).1.1 = bytes_of "person") /\
  (forall request r,
      (render_put request r).2 = changed_ok /\
      code changed_ok = Some CHANGED /\
      forall r', changed_ok <> render_get_class r') /\
  (forall request r,
      label r = strip (or_empty (payload request)) ->
      render_put request r = (r, [], changed_ok)).
Proof.
  split; [exact render_put_stores|]. split; [exact strip_spec|].
  split; [intros r; rewrite render_put_stores; reflexivity|].
  split; [|exact render_put_same].
  intros request r. split; [apply render_put_response|].
  split; [reflexivity|]. intros r'. discriminate.
Qed.

Lemma put_trims_and_acknowledges_witness :
  label person_class = strip (or_empty (payload (PUT (bytes_of " person ")))) /\
  render_put (PUT (bytes_of " person ")) person_class =
    (person_class, [], changed_ok).
Proof.
  assert (H : label person_class =
              strip (or_empty (payload (PUT (bytes_of " person ")))))
    by reflexivity.
  split; [exact H|].
  exact (proj2 (proj2 (proj2 (proj2 put_trims_and_acknowledges))) _ _ H).
Defined.

(** ** Malformed writes *)

Lemma notified_present p n (l : list nat) :
  NoDup l -> p ∈ l -> notified p ((fun q => mkNotification q n) <$> l) = 1%nat.
Proof.
  induction 1 as [|q l Hq Hnd IH]; intros Hin; [inversion Hin|].
  unfold notified in *. cbn [fmap list_fmap].
  destruct (decide (q = p)) as [->|Hne].
  - rewrite filter_cons_True by reflexivity. cbn [length].
    pose proof (notified_absent p n l Hq) as H0. unfold notified in H0.
    rewrite H0. reflexivity.
  - rewrite filter_cons_False by (cbn; congruence).
    apply IH. apply elem_of_cons in Hin as [->|Hin]; [congruence|exact Hin].
Qed.

Lemma updated_state_each o p :
  p ∈ observers o -> notified p (updated_state o).2 = 1%nat.
Proof.
  intros Hp. apply notified_present; [apply NoDup_elements|].
  apply elem_of_elements, Hp.
Qed.

(** C6, as the code has it. [render_put] looks at neither the encoding
    nor the size of the payload: a write that is not UTF-8, or is longer
    than any given limit, is acknowledged with [2.04 Changed] like any
    other; its trimmed payload becomes the label and, when that differs
    from the label before, the sequence is incremented and every observer
    is notified once. *)
Theorem malformed_put_is_stored (limit : nat) (request : Message)
    (r : ClassResource) :
  malformed limit (or_empty (payload request)) ->
  let '(r', ns, resp) := render_put request r in
  resp = changed_ok /\
  label r' = strip (or_empty (payload request)) /\
  (label r <> strip (or_empty (payload request)) ->
   sequence (class_obs r') = S (sequence (class_obs r)) /\
   forall p, p ∈ observers (class_obs r) -> notified p ns = 1%nat).
Proof.
  intros _.
  pose proof (render_put_stores request r) as Hl.
  pose proof (render_put_response request r) as Hr.
  destruct (render_put request r) as [[r' ns] resp] eqn:E.
  cbn [fst snd] in Hl, Hr. repeat split; try assumption.
  - unfold render_put in E. cbn zeta in E.
    destruct (decide (_ ≠ label r)) as [Hne|He];
      injection E as <- <- <-; [reflexivity|congruence].
  - intros p Hp. unfold render_put in E. cbn zeta in E.
    destruct (decide (_ ≠ label r)) as [Hne|He];
      injection E as <- <- <-; [|congruence].
    apply updated_state_each, Hp.
Qed.

Lemma malformed_put_is_stored_witness :
  malformed 1024 (or_empty (payload (PUT [xff]))) /\
  let '(r', ns, resp) := render_put (PUT [xff]) (class_res fresh_site) in
  resp = changed_ok /\ label r' = [xff].
Proof.
  assert (Hm : malformed 1024 (or_empty (payload (PUT [xff])))).
  { left. reflexivity. }
  split; [exact Hm|].
  pose proof (malformed_put_is_stored 1024 (PUT [xff]) (class_res fresh_site) Hm)
    as H.
  destruct (render_put (PUT [xff]) (class_res fresh_site)) as [[r' ns] resp].
  destruct H as (H1 & H2 & _). split; [exact H1|exact H2].
Defined.

(** C6 as the specification states it fails: the one-byte payload [0xff]
    is not UTF-8, and it is not rejected. *)
Lemma non_utf8_put_not_rejected :
  malformed 1024 [xff] /\ ~ rejected (PUT [xff]) (class_res fresh_site).
Proof.
  split; [left; reflexivity|].
  unfold rejected.
  pose proof (render_put_response (PUT [xff]) (class_res fresh_site)) as Hr.
  destruct (render_put (PUT [xff]) (class_res fresh_site)) as [[r' ns] resp].
  cbn [snd] in Hr. subst resp.
  intros [(c & Hc & He) _]. cbn in Hc. injection Hc as <-. discriminate.
Qed.

(** ** The rise callback *)

Lemma rise_image_jpeg c st :
  jpeg (image_res (rise_image c st)) =
  default (jpeg (image_res st)) (stored_jpeg c).
Proof.
  unfold rise_image, stored_jpeg.
  destruct (crop_bgr c) as [crop|]; [|reflexivity].
  destruct (0 <? size crop); [|reflexivity].
  destruct (imencode c); reflexivity.
Qed.

Lemma rise_image_rest c st :
  motion_res (rise_image c st) = motion_res st /\
  last_res (rise_image c st) = last_res st /\
  class_res (rise_image c st) = class_res st /\
  outbox (rise_image c st) = outbox st.
Proof.
  unfold rise_image.
  destruct (crop_bgr c) as [crop|]; [|auto].
  destruct (0 <? size crop); [|auto].
  destruct (imencode c); auto.
Qed.

Lemma rise_last_fields c st :
  motion_res (rise_last c st) = motion_res st /\
  image_res (rise_last c st) = image_res st /\
  class_res (rise_last c st) = class_res st /\
  ts (last_res (rise_last c st)) = encode (strftime_now c) /\
  exists ns, outbox (rise_last c st) = outbox st ++ (pair p_lastdetection <$> ns).
Proof.
  unfold rise_last.
  pose proof (set_now_stores (last_res st) (strftime_now c)) as Hts.
  destruct (set_now (strftime_now c) (last_res st)) as [r ns].
  cbn. repeat split; [exact Hts|]. exists ns. reflexivity.
Qed.

Lemma set_motion_fields v st :
  last_res (set_motion v st) = last_res st /\
  image_res (set_motion v st) = image_res st /\
  class_res (set_motion v st) = class_res st /\
  motion (motion_res (set_motion v st)) = v /\
  exists ns, outbox (set_motion v st) = outbox st ++ (pair p_motion <$> ns).
Proof.
  unfold set_motion.
  pose proof (set_stores (motion_res st) v) as Hm.
  destruct (set v (motion_res st)) as [r ns].
  cbn. repeat split; [exact Hm|]. exists ns. reflexivity.
Qed.

Lemma put_class_fields request st :
  last_res (put_class request st).1 = last_res st /\
  image_res (put_class request st).1 = image_res st.
Proof.
  unfold put_class. destruct (render_put request (class_res st)) as [[r ns] m].
  split; reflexivity.
Qed.

Lemma on_rise_holds c st buf :
  stored_jpeg c = Some buf ->
  ts (last_res (on_rise c st)) = encode (strftime_now c) /\
  jpeg (image_res (on_rise c st)) = buf.
Proof.
  intros Hs. unfold on_rise, on_rise_states. cbn [snd].
  destruct (set_motion_fields (bytes_of "true")
              (rise_last c (rise_image c st))) as (-> & -> & _).
  destruct (rise_last_fields c (rise_image c st)) as (_ & -> & _ & -> & _).
  rewrite rise_image_jpeg, Hs. split; reflexivity.
Qed.

Lemma run_keeps_pair ops : forall st,
  forallb (fun op => negb (is_OnRise op)) ops = true ->
  last_res (run st ops) = last_res st /\ image_res (run st ops) = image_res st.
Proof.
  induction ops as [|op ops IH]; intros st Hops; [split; reflexivity|].
  cbn [forallb] in Hops. apply andb_prop in Hops as [Hop Hops].
  unfold run. cbn [foldl]. fold (run (apply_op st op) ops).
  destruct (IH (apply_op st op) Hops) as [-> ->].
  destruct op as [c| |request]; [discriminate| |]; cbn [apply_op].
  - unfold on_fall.
    destruct (set_motion_fields (bytes_of "false") st) as (-> & -> & _).
    split; reflexivity.
  - apply put_class_fields.
Qed.

(** C4, as the code has it. [on_rise] runs three statements in a fixed
    order. The first touches [image] only, and stores the JPEG bytes
    when the crop is there, is not empty and [cv2.imencode] succeeds;
    otherwise [image] keeps what it held. The second touches
    [lastDetection] only and the third [motion] only, and the
    [lastDetection] notifications are scheduled before those of [motion].
    So for a rise whose snapshot was stored, [image] holds that snapshot
    in the state in which [lastDetection] takes the timestamp of the rise
    and in every later state until the next rise. *)
Theorem rise_updates_in_order (c : RiseCall) (st : Site) :
  let '(st1, st2, st3) := on_rise_states c st in
  (motion_res st1 = motion_res st /\ last_res st1 = last_res st /\
   class_res st1 = class_res st /\ outbox st1 = outbox st /\
   jpeg (image_res st1) = default (jpeg (image_res st)) (stored_jpeg c)) /\
  (motion_res st2 = motion_res st1 /\ image_res st2 = image_res st1 /\
   class_res st2 = class_res st1 /\
   ts (last_res st2) = encode (strftime_now c)) /\
  (last_res st3 = last_res st2 /\ image_res st3 = image_res st2 /\
   class_res st3 = class_res st2 /\
   motion (motion_res st3) = bytes_of "true") /\
  on_rise c st = st3 /\
  (exists nl nm,
      outbox st3 =
      outbox st ++ (pair p_lastdetection <$> nl) ++ (pair p_motion <$> nm)) /\
  (forall buf,
      stored_jpeg c = Some buf ->
      (holds_timestamp c st2 /\ jpeg (image_res st2) = buf) /\
      (holds_timestamp c st3 /\ jpeg (image_res st3) = buf) /\
      forall ops,
        forallb (fun op => negb (is_OnRise op)) ops = true ->
        holds_timestamp c (run st3 ops) /\
        jpeg (image_res (run st3 ops)) = buf).
Proof.
  unfold on_rise_states. cbn zeta.
  set (st1 := rise_image c st).
  set (st2 := rise_last c st1).
  set (st3 := set_motion (bytes_of "true") st2).
  destruct (rise_image_rest c st) as (Hm1 & Hl1 & Hc1 & Ho1).
  pose proof (rise_image_jpeg c st) as Hj1.
  destruct (rise_last_fields c st1) as (Hm2 & Hi2 & Hc2 & Ht2 & nl & Ho2).
  destruct (set_motion_fields (bytes_of "true") st2)
    as (Hl3 & Hi3 & Hc3 & Hm3 & nm & Ho3).
  fold st1 in Hm1, Hl1, Hc1, Ho1, Hj1. fold st2 in Hm2, Hi2, Hc2, Ht2, Ho2.
  fold st3 in Hl3, Hi3, Hc3, Hm3, Ho3.
  split; [auto 6|]. split; [auto|]. split; [auto|]. split; [reflexivity|].
  split.
  - exists nl, nm. rewrite Ho3, Ho2, Ho1, app_assoc. reflexivity.
  - intros buf Hs. unfold holds_timestamp.
    assert (Hj2 : jpeg (image_res st2) = buf).
    { rewrite Hi2, Hj1, Hs. reflexivity. }
    repeat split.
    + exact Ht2.
    + exact Hj2.
    + rewrite Hl3. exact Ht2.
    + rewrite Hi3. exact Hj2.
    + destruct (run_keeps_pair ops st3 H) as [-> _]. rewrite Hl3. exact Ht2.
    + destruct (run_keeps_pair ops st3 H) as [_ ->]. rewrite Hi3. exact Hj2.
Qed.

Lemma rise_updates_in_order_witness :
  stored_jpeg rise1 = Some (bytes_of "JPEG-1") /\
  holds_timestamp rise1 (run (on_rise rise1 fresh_site) [OnFall]) /\
  jpeg (image_res (run (on_rise rise1 fresh_site) [OnFall])) = bytes_of "JPEG-1".
Proof.
  assert (Hs : stored_jpeg rise1 = Some (bytes_of "JPEG-1")) by reflexivity.
  split; [exact Hs|].
  pose proof (rise_updates_in_order rise1 fresh_site) as H.
  unfold on_rise.
  destruct (on_rise_states rise1 fresh_site) as [[st1 st2] st3].
  destruct H as (_ & _ & _ & _ & _ & H).
  destruct (H _ Hs) as (_ & _ & Hrun).
  exact (Hrun [OnFall] eq_refl).
Defined.

(** C4 as the specification states it fails. After a first rise whose
    crop was encoded and a second for which [cv2.imencode] failed,
    [lastDetection] holds the timestamp of the second rise while [image]
    does not hold a snapshot of it: it still holds the first one. *)
Lemma stale_image_after_failed_encoding :
  let st := on_rise rise2 (on_rise rise1 fresh_site) in
  holds_timestamp rise2 st /\
  ~ holds_snapshot rise2 st /\
  holds_snapshot rise1 st.
Proof.
  cbn zeta. unfold holds_timestamp, holds_snapshot.
  split; [vm_compute; reflexivity|].
  split; [cbn; discriminate|]. vm_compute. reflexivity.
Qed.

End ServerFacts.

(* ===================================================================== *)
(** * Properties of the CoAP classifier client *)
(* ===================================================================== *)

Module ClassifierFacts.
Import Classifier.

Lemma fresh_increasing ds : forall last_seq,
  increasing last_seq ds -> fresh last_seq ds = ds.
Proof.
  induction ds as [|d ds IH]; intros last_seq Hinc; [reflexivity|].
  destruct Hinc as [Hlt Hinc]. cbn [fresh].
  apply Nat.ltb_lt in Hlt. rewrite Hlt, (IH _ Hinc). reflexivity.
Qed.

Lemma handle_notification_requests d :
  handle_notification d =
  GET PATH_IMAGE None ::
  match image_reply d with
  | Some _ => [PUT PATH_CLASS (bytes_of "unknown")]
  | None => []
  end.
Proof. unfold handle_notification. destruct (image_reply d); reflexivity. Qed.

Lemma handle_notification_ignores_msg d d' :
  image_reply d = image_reply d' ->
  handle_notification d = handle_notification d'.
Proof. unfold handle_notification. intros ->. reflexivity. Qed.

Lemma tasks_ignore_msg (ds' : list Delivery) : forall ds : list Delivery,
  image_reply <$> ds' = image_reply <$> ds ->
  handle_notification <$> ds' = handle_notification <$> ds.
Proof.
  induction ds' as [|d' ds' IH]; intros [|d ds] Heq;
    try discriminate; [reflexivity|].
  cbn in Heq. injection Heq as Hd Hds. cbn [fmap list_fmap].
  rewrite (handle_notification_ignores_msg d' d Hd). f_equal.
  apply IH, Hds.
Qed.

(** C8, as the code has it. At startup the client sends one GET on
    [lastdetection] with [observe=0]. After the initial response, every
    invocation of the observation callback starts one task, whatever
    sequence number and payload the notification carries: the task sends
    a GET on [image] and, when the image arrives, a PUT on [class] whose
    payload is the label of [infer_jpeg], [b"unknown"]. (The callback is
    registered once the initial response has arrived and its payload
    has been printed, which needs it to be UTF-8.) The client keeps
    no sequence of its own; when the notifications delivered carry
    strictly increasing sequences, these are exactly the notifications
    the specification names. *)
Theorem client_handles_every_delivery (initial : Notification)
    (ds : list Delivery) :
  Server.valid_utf8 (n_payload initial) = true ->
  let '(startup, tasks) := main (Some initial) ds in
  startup = [GET PATH_LAST (Some 0%nat)] /\
  length tasks = length ds /\
  (forall i d,
      ds !! i = Some d ->
      tasks !! i =
      Some (GET PATH_IMAGE None ::
            match image_reply d with
            | Some _ => [PUT PATH_CLASS (bytes_of "unknown")]
            | None => []
            end)) /\
  (forall ds',
      image_reply <$> ds' = image_reply <$> ds ->
      (main (Some initial) ds').2 = tasks) /\
  (increasing (observe_seq initial) ds ->
   tasks = handle_notification <$> fresh (observe_seq initial) ds).
Proof.
  intros Hv. cbn [main]. rewrite Hv.
  split; [reflexivity|]. split; [apply length_fmap|].
  split; [|split].
  - intros i d Hd. rewrite list_lookup_fmap, Hd. cbn.
    rewrite handle_notification_requests. reflexivity.
  - intros ds' Heq. cbn [main snd]. rewrite Hv.
    apply tasks_ignore_msg, Heq.
  - intros Hinc. rewrite (fresh_increasing _ _ Hinc). reflexivity.
Qed.

Lemma client_handles_every_delivery_witness :
  Server.valid_utf8 (n_payload baseline) = true /\
  increasing (observe_seq baseline) (take 1 twice) /\
  (main (Some baseline) (take 1 twice)).2 =
  handle_notification <$> fresh (observe_seq baseline) (take 1 twice).
Proof.
  assert (Hv : Server.valid_utf8 (n_payload baseline) = true) by reflexivity.
  assert (Hinc : increasing (observe_seq baseline) (take 1 twice)).
  { cbn. split; [lia|exact I]. }
  split; [exact Hv|]. split; [exact Hinc|].
  pose proof (client_handles_every_delivery baseline (take 1 twice) Hv) as H.
  destruct (main (Some baseline) (take 1 twice)) as [startup tasks].
  destruct H as (_ & _ & _ & _ & H). exact (H Hinc).
Defined.

(** C8 as the specification states it fails. A notification delivered a
    second time, with the sequence already processed, is acted on again:
    two tasks run where the specification allows one. *)
Lemma client_acts_on_repeated_sequence :
  length (main (Some baseline) twice).2 = 2%nat /\
  length (handle_notification <$> fresh (observe_seq baseline) twice) = 1%nat /\
  (main (Some baseline) twice).2 <>
  handle_notification <$> fresh (observe_seq baseline) twice.
Proof.
  split; [reflexivity|]. split; [reflexivity|].
  intros H. apply (f_equal length) in H. discriminate H.
Qed.

End ClassifierFacts.

(* ===================================================================== *)
(** * Properties of the MQTT classifier *)
(* ===================================================================== *)

Module MqttFacts.
Import Mqtt.

Lemma slash_char : String slash EmptyString = "/"%string.
Proof. reflexivity. Qed.

Lemma split_no_slash s : no_slash s = true -> split s = [s].
Proof.
  induction s as [|c s IH]; [reflexivity|]. cbn [no_slash split].
  intros H. apply andb_prop in H as [Hc Hs].
  apply negb_true_iff in Hc. rewrite Hc, (IH Hs). reflexivity.
Qed.

Lemma split_app s t :
  no_slash s = true -> split (s +:+ String slash t) = s :: split t.
Proof.
  induction s as [|c s IH]; intros H.
  - cbn. reflexivity.
  - cbn [no_slash] in H. apply andb_prop in H as [Hc Hs].
    apply negb_true_iff in Hc.
    change (String c s +:+ String slash t) with (String c (s +:+ String slash t)).
    cbn [split]. rewrite Hc, (IH Hs). reflexivity.
Qed.

Lemma cam_id_of_device id :
  no_slash id = true ->
  cam_id_of ("motion/device/" +:+ id +:+ "/image") = id.
Proof.
  intros Hid. unfold cam_id_of.
  change ("motion/device/" +:+ id +:+ "/image")
    with ("motion" +:+ String slash ("device" +:+ String slash
            (id +:+ String slash "image"))).
  rewrite !split_app by (exact Hid || reflexivity).
  rewrite split_no_slash by reflexivity. reflexivity.
Qed.

Lemma format_default id :
  format TOPIC_OUT_FMT_default id = Ok ("motion/device/" +:+ id +:+ "/class").
Proof. reflexivity. Qed.

Lemma classify_bgr_label cv img l :
  classify_bgr cv img = Ok l -> l = "person" \/ l = "unknown".
Proof.
  unfold classify_bgr. destruct img as [img|]; [|intros [= <-]; auto].
  destruct (Server.size img =? 0); [intros [= <-]; auto|].
  destruct (detect_faces cv img) as [faces|e]; [|discriminate].
  intros [= <-]. destruct (0 <? faces)%nat; auto.
Qed.

Lemma try_body_Ok cv fmt msg p :
  try_body cv fmt msg = Ok p ->
  qos p = 1%nat /\ retain p = false /\
  format fmt (cam_id_of (topic msg)) = Ok (out_topic p) /\
  (label p = "person" \/ label p = "unknown").
Proof.
  unfold try_body. cbn zeta.
  destruct (imdecode cv (payload msg)) as [img|e]; [|discriminate].
  destruct (classify_bgr cv img) as [l|e] eqn:Hl; [|discriminate].
  destruct (format fmt (cam_id_of (topic msg))) as [t|e]; [|discriminate].
  intros [= <-]. cbn. repeat split. eapply classify_bgr_label, Hl.
Qed.

Lemma loop_forever_app cv fmt msgs1 msgs2 :
  loop_forever cv fmt (msgs1 ++ msgs2) =
  loop_forever cv fmt msgs1 ++ loop_forever cv fmt msgs2.
Proof.
  induction msgs1 as [|m msgs1 IH]; [reflexivity|].
  cbn [app loop_forever]. rewrite IH, app_assoc. reflexivity.
Qed.

(** C9, as the code has it. For each message received, [on_message]
    publishes at most one label. When no step of the processing raises it
    publishes exactly one, ["person"] or ["unknown"], with QoS 1 and no
    retain, on the topic [TOPIC_OUT_FMT] gives for the device id of the
    input topic ([motion/device/<id>/class] for [motion/device/<id>/image]
    with the default format). When a step raises, the exception is caught
    and logged and nothing is published for that message. Either way the
    messages before and after are processed as they would be without it. *)
Theorem one_label_unless_processing_fails (cv : OpenCV) (fmt : list Segment)
    (msg : MQTTMessage) :
  (length (on_message cv fmt msg).1 <= 1)%nat /\
  (forall p,
      try_body cv fmt msg = Ok p ->
      on_message cv fmt msg = ([p], None) /\
      qos p = 1%nat /\ retain p = false /\
      format fmt (cam_id_of (topic msg)) = Ok (out_topic p) /\
      (label p = "person" \/ label p = "unknown")) /\
  (forall e,
      try_body cv fmt msg = Raised e ->
      on_message cv fmt msg = ([], Some e)) /\
  (forall id,
      no_slash id = true ->
      cam_id_of ("motion/device/" +:+ id +:+ "/image") = id /\
      format TOPIC_OUT_FMT_default id =
      Ok ("motion/device/" +:+ id +:+ "/class")) /\
  (forall msgs1 msgs2,
      loop_forever cv fmt (msgs1 ++ msg :: msgs2) =
      loop_forever cv fmt msgs1 ++ (on_message cv fmt msg).1
        ++ loop_forever cv fmt msgs2).
Proof.
  split; [|split; [|split; [|split]]].
  - unfold on_message. destruct (try_body cv fmt msg); cbn; lia.
  - intros p Hp. split; [unfold on_message; rewrite Hp; reflexivity|].
    apply (try_body_Ok cv fmt msg p Hp).
  - intros e He. unfold on_message. rewrite He. reflexivity.
  - intros id Hid. split; [apply cam_id_of_device, Hid|apply format_default].
  - intros msgs1 msgs2. rewrite loop_forever_app. reflexivity.
Qed.

Lemma one_label_unless_processing_fails_witness :
  try_body opencv_empty_raises TOPIC_OUT_FMT_default image_message =
    Ok (mkPublish "motion/device/cam1/class" "unknown" 1 false) /\
  on_message opencv_empty_raises TOPIC_OUT_FMT_default image_message =
    ([mkPublish "motion/device/cam1/class" "unknown" 1 false], None).
Proof.
  assert (Hb : try_body opencv_empty_raises TOPIC_OUT_FMT_default image_message
               = Ok (mkPublish "motion/device/cam1/class" "unknown" 1 false))
    by reflexivity.
  split; [exact Hb|].
  destruct (one_label_unless_processing_fails opencv_empty_raises
              TOPIC_OUT_FMT_default image_message) as (_ & H & _).
  exact (proj1 (H _ Hb)).
Defined.

(** C9 as the specification states it fails. A message with an empty
    payload makes [cv2.imdecode] raise: no label is published for it,
    while the message after it still gets its own. *)
Lemma no_label_when_decoding_raises :
  on_message opencv_empty_raises TOPIC_OUT_FMT_default empty_image_message =
    ([], Some cv2_error) /\
  length (on_message opencv_empty_raises TOPIC_OUT_FMT_default
            empty_image_message).1 <> 1%nat /\
  loop_forever opencv_empty_raises TOPIC_OUT_FMT_default
    [empty_image_message; image_message] =
    [mkPublish "motion/device/cam1/class" "unknown" 1 false].
Proof.
  split; [reflexivity|]. split; [discriminate|reflexivity].
Qed.

End MqttFacts.

(* ===================================================================== *)
(** * Further properties of the edge detector *)
(* ===================================================================== *)

Module TraceFacts.
Import Detector DetectorFacts Traces.

(** ** The callbacks take turns *)

Lemma loop_from_alternates cfg frames : forall s,
  alternates (motion_on s) (loop_from cfg s frames).
Proof.
  induction frames as [|f frames IH]; intros s; cbn [loop_from]; [exact I|].
  specialize (IH (fst (step cfg s f))). rewrite step_motion_on in IH.
  destruct (step_events cfg s f) as [crop ->].
  pose proof (rise_guard_seen cfg s f) as Hr.
  pose proof (falls_at_eq cfg s f) as Hf.
  destruct (rises_at cfg s f), (falls_at cfg s f); cbn in *.
  - symmetry in Hr. apply andb_prop in Hr as [Hr _].
    apply andb_prop in Hr as [Hr _]. apply negb_true_iff in Hr. auto.
  - symmetry in Hr. apply andb_prop in Hr as [Hr _].
    apply andb_prop in Hr as [Hr _]. apply negb_true_iff in Hr. auto.
  - symmetry in Hf. apply andb_prop in Hf as [Hf _]. auto.
  - exact IH.
Qed.

Lemma alternates_next tr : forall on i t1 e1 t2 e2,
  alternates on tr ->
  tr !! i = Some (t1, e1) -> tr !! S i = Some (t2, e2) ->
  rising e2 = negb (rising e1).
Proof.
  induction tr as [|[t e] tr IH]; intros on i t1 e1 t2 e2 Ha H1 H2;
    [discriminate|].
  destruct i as [|i].
  - cbn in H1. injection H1 as -> ->.
    destruct tr as [|[t' e'] tr]; [discriminate|].
    cbn in H2. injection H2 as -> ->.
    destruct e1, e2; cbn in Ha; try reflexivity;
      destruct Ha as [_ [Hc _]]; discriminate.
  - cbn in H1, H2. destruct e; destruct Ha as [_ Ha]; eapply IH; eauto.
Qed.

(** X1. In the trace of any run of [loop] the two callbacks take turns:
    the first call is [on_rise], and each call is followed by a call of
    the other kind. *)
Theorem callbacks_take_turns (cfg : Config) (frames : list FrameIn) :
  (forall t e, loop cfg frames !! 0%nat = Some (t, e) -> rising e = true) /\
  (forall i t1 e1 t2 e2,
      loop cfg frames !! i = Some (t1, e1) ->
      loop cfg frames !! S i = Some (t2, e2) ->
      rising e2 = negb (rising e1)).
Proof.
  pose proof (loop_from_alternates cfg frames init) as Ha.
  fold (loop cfg frames) in Ha. split.
  - intros t e H0. destruct (loop cfg frames) as [|[t' e'] tr]; [discriminate|].
    cbn in H0. injection H0 as -> ->.
    destruct e; [reflexivity|]. destruct Ha as [Hc _]. discriminate.
  - intros i t1 e1 t2 e2. eapply alternates_next, Ha.
Qed.

Lemma callbacks_take_turns_witness :
  loop run_py [motion_frame 10000; still_frame 13000; motion_frame 13500]
    !! 1%nat = Some (13000, Fall) /\
  loop run_py [motion_frame 10000; still_frame 13000; motion_frame 13500]
    !! 2%nat = Some (13500, Rise (Some (replicate 2 (replicate 3 black)))) /\
  rising (Rise (Some (replicate 2 (replicate 3 black)))) = negb (rising Fall).
Proof.
  split; [reflexivity|]. split; [reflexivity|].
  exact (proj2 (callbacks_take_turns run_py
                  [motion_frame 10000; still_frame 13000; motion_frame 13500])
           1%nat _ _ _ _ eq_refl eq_refl).
Defined.

(** ** A scene without motion *)

Lemma below_threshold_no_motion cfg f :
  below_threshold cfg f -> motion_now_of cfg f = false.
Proof.
  intros Hb. destruct (motion_now_of cfg f) eqn:Hm; [|reflexivity].
  apply motion_now_iff in Hm as (c & Hin & Hq & _).
  unfold below_threshold in Hb. rewrite Forall_forall in Hb.
  specialize (Hb c Hin). lia.
Qed.

Lemma step_idle cfg s f :
  motion_now_of cfg f = false -> motion_on s = false ->
  step cfg s f = (s, []).
Proof.
  intros Hm Hon. rewrite step_unfold. cbn zeta.
  unfold rising_edge, rise_guard, seen, see_motion. rewrite Hm.
  rewrite andb_false_r. cbn [fst snd andb].
  unfold falling_edge, fall_guard. rewrite Hon. reflexivity.
Qed.

(** X2. While no contour exceeds [min_contour_area], [loop] calls neither
    callback and leaves its state as [__init__] set it. *)
Theorem still_scene_is_silent (cfg : Config) (frames : list FrameIn) :
  Forall (below_threshold cfg) frames ->
  loop cfg frames = [] /\ state_after cfg frames = init.
Proof.
  unfold loop, state_after. generalize (eq_refl (motion_on init)).
  generalize init at 1 3 4 5. intros s Hon Hall. cbn in Hon.
  induction Hall as [|f frames Hf _ IH]; [split; reflexivity|].
  cbn [loop_from state_from].
  rewrite (step_idle cfg s f (below_threshold_no_motion cfg f Hf) Hon).
  cbn [fst snd fmap list_fmap app]. exact IH.
Qed.

Lemma still_scene_is_silent_witness :
  Forall (below_threshold run_py)
    [still_frame 10000; mkFrameIn frame_4x6 [mkContour 2500 (mkRect 0 0 1 1)] 20000] /\
  loop run_py
    [still_frame 10000; mkFrameIn frame_4x6 [mkContour 2500 (mkRect 0 0 1 1)] 20000]
  = [].
Proof.
  assert (H : Forall (below_threshold run_py)
                [still_frame 10000;
                 mkFrameIn frame_4x6 [mkContour 2500 (mkRect 0 0 1 1)] 20000]).
  { repeat constructor. cbn. lia. }
  split; [exact H|]. exact (proj1 (still_scene_is_silent run_py _ H)).
Defined.

(** ** Positive and non-positive quiet intervals *)

Lemma step_length cfg s f :
  length (snd (step cfg s f)) =
  ((if rises_at cfg s f then 1 else 0) + (if falls_at cfg s f then 1 else 0))%nat.
Proof.
  destruct (step_events cfg s f) as [crop ->]. rewrite length_app.
  destruct (rises_at cfg s f), (falls_at cfg s f); reflexivity.
Qed.

Lemma rises_at_motion cfg s f :
  rises_at cfg s f = true -> motion_now_of cfg f = true.
Proof.
  rewrite rise_guard_seen. intros H.
  apply andb_prop in H as [H _]. apply andb_prop in H as [_ H]. exact H.
Qed.

Lemma falls_at_motion cfg s f :
  motion_now_of cfg f = true ->
  falls_at cfg s f = (rises_at cfg s f || motion_on s) && (quiet cfg <=? 0).
Proof. intros Hm. rewrite falls_at_eq, Hm, Z.sub_diag. reflexivity. Qed.

(** X3. With a positive [quiet_sec], an iteration on which motion is seen
    never calls [on_fall], whatever the state; so no iteration calls both
    callbacks, and each makes at most one call. *)
Theorem no_fall_while_motion (cfg : Config) (s : State) (f : FrameIn) :
  0 < quiet cfg ->
  (motion_now_of cfg f = true -> ~ Fall ∈ snd (step cfg s f)) /\
  (length (snd (step cfg s f)) <= 1)%nat.
Proof.
  intros Hq.
  assert (Hno : motion_now_of cfg f = true -> falls_at cfg s f = false).
  { intros Hm. rewrite (falls_at_motion cfg s f Hm).
    destruct (Z.leb_spec (quiet cfg) 0); [lia|apply andb_false_r]. }
  split.
  - intros Hm. rewrite Fall_in_step, (Hno Hm). discriminate.
  - rewrite step_length. destruct (rises_at cfg s f) eqn:Hr.
    + rewrite (Hno (rises_at_motion cfg s f Hr)). cbn. lia.
    + destruct (falls_at cfg s f); cbn; lia.
Qed.

Lemma no_fall_while_motion_witness :
  0 < quiet run_py /\
  motion_now_of run_py (motion_frame 20000) = true /\
  ~ Fall ∈ snd (step run_py (mkState true 10000 10000) (motion_frame 20000)).
Proof.
  assert (Hq : 0 < quiet run_py) by (cbn; lia).
  split; [exact Hq|]. split; [reflexivity|].
  exact (proj1 (no_fall_while_motion run_py (mkState true 10000 10000)
                  (motion_frame 20000) Hq) eq_refl).
Defined.

Lemma step_nonpositive_quiet cfg s f :
  quiet cfg <= 0 -> motion_on s = false ->
  motion_on (fst (step cfg s f)) = false /\
  (snd (step cfg s f) = [] \/ exists crop, snd (step cfg s f) = [Rise crop; Fall]).
Proof.
  intros Hq Hon. rewrite step_motion_on.
  destruct (step_events cfg s f) as [crop ->].
  pose proof (falls_at_eq cfg s f) as Hf. rewrite Hon, orb_false_r in Hf.
  destruct (rises_at cfg s f) eqn:Hr.
  - rewrite (rises_at_motion cfg s f Hr), Z.sub_diag in Hf.
    cbn [andb] in Hf. apply Z.leb_le in Hq. rewrite Hq in Hf. rewrite Hf.
    split; [reflexivity|]. right. exists crop. reflexivity.
  - cbn [andb] in Hf. rewrite Hf. split; [exact Hon|]. left. reflexivity.
Qed.

Lemma loop_from_nonpositive_quiet cfg frames : forall s,
  quiet cfg <= 0 -> motion_on s = false ->
  motion_on (state_from cfg s frames) = false /\
  forall i t crop,
    loop_from cfg s frames !! i = Some (t, Rise crop) ->
    loop_from cfg s frames !! S i = Some (t, Fall).
Proof.
  induction frames as [|f frames IH]; intros s Hq Hon.
  - split; [exact Hon|]. intros i t crop H. destruct i; discriminate.
  - cbn [loop_from state_from].
    destruct (step_nonpositive_quiet cfg s f Hq Hon) as [Hon' Hev].
    destruct (IH _ Hq Hon') as [Hfin Hrest]. split; [exact Hfin|].
    destruct Hev as [->|[c ->]]; intros i t crop Hi.
    + cbn [fmap list_fmap app] in *. apply Hrest in Hi. exact Hi.
    + cbn [fmap list_fmap app] in *. destruct i as [|[|i]].
      * cbn in Hi. injection Hi as <- <-. reflexivity.
      * cbn in Hi. discriminate.
      * cbn in Hi |- *. apply Hrest in Hi. exact Hi.
Qed.

(** X4. With [quiet_sec] zero or negative the detector never stays
    active: every [on_rise] is followed by [on_fall] in the same
    iteration, and after any run [motion_on] is [False]. *)
Theorem nonpositive_quiet_falls_at_once (cfg : Config)
    (frames : list FrameIn) :
  quiet cfg <= 0 ->
  motion_on (state_after cfg frames) = false /\
  forall i t crop,
    loop cfg frames !! i = Some (t, Rise crop) ->
    loop cfg frames !! S i = Some (t, Fall).
Proof.
  intros Hq. apply loop_from_nonpositive_quiet; [exact Hq|reflexivity].
Qed.

Lemma nonpositive_quiet_falls_at_once_witness :
  quiet no_quiet <= 0 /\
  loop no_quiet [motion_frame 10000] =
    [(10000, Rise (Some (replicate 2 (replicate 3 black)))); (10000, Fall)] /\
  loop no_quiet [motion_frame 10000] !! 1%nat = Some (10000, Fall).
Proof.
  assert (Hq : quiet no_quiet <= 0) by (cbn; lia).
  split; [exact Hq|]. split; [reflexivity|].
  exact (proj2 (nonpositive_quiet_falls_at_once no_quiet [motion_frame 10000] Hq)
           0%nat 10000 _ eq_refl).
Defined.

(** ** The recorded rise *)

(** X5. After any run, [last_rise_ts] is the instant of the last
    [on_rise] call, and [0.0] as long as there was none. *)
Theorem last_rise_is_recorded (cfg : Config) (frames : list FrameIn) :
  last_rise_ts (state_after cfg frames) =
  default 0 (last (rise_times (loop cfg frames))).
Proof.
  induction frames as [|f frames IH] using rev_ind; [reflexivity|].
  rewrite state_snoc, loop_snoc, step_last_rise, rise_times_app,
    rise_times_step, last_app.
  destruct (rises_at cfg (state_after cfg frames) f); [reflexivity|exact IH].
Qed.

(** ** How long the detector stays active *)

Lemma loop_from_dwell cfg frames : forall s t,
  in_order s t -> nondecreasing t frames ->
  dwell (quiet cfg) (last_rise_ts s) (loop_from cfg s frames).
Proof.
  induction frames as [|f frames IH]; intros s t (Hr & Hs & Hon) Hnd;
    cbn [loop_from]; [exact I|].
  destruct Hnd as [Ht Hnd].
  specialize (IH (fst (step cfg s f)) (now f)).
  rewrite step_last_rise in IH.
  assert (Hin : in_order (fst (step cfg s f)) (now f)).
  { unfold in_order.
    rewrite step_last_rise, step_last_seen, step_motion_on.
    pose proof (rises_at_motion cfg s f) as Hm.
    destruct (rises_at cfg s f), (falls_at cfg s f),
      (motion_now_of cfg f) eqn:E; repeat split; intros;
      try discriminate; try lia;
      try (specialize (Hm eq_refl); discriminate);
      try (specialize (Hon ltac:(assumption)); lia). }
  specialize (IH Hin Hnd).
  destruct (step_events cfg s f) as [crop ->].
  pose proof (falls_at_eq cfg s f) as Hf.
  pose proof (rises_at_motion cfg s f) as Hm.
  destruct (rises_at cfg s f) eqn:Hra, (falls_at cfg s f) eqn:Hfa;
    cbn [fmap list_fmap app dwell].
  - rewrite (Hm eq_refl), Z.sub_diag in Hf. symmetry in Hf.
    apply andb_prop in Hf as [_ Hf]. apply Z.leb_le in Hf.
    split; [lia|exact IH].
  - exact IH.
  - symmetry in Hf. apply andb_prop in Hf as [Hf1 Hf2]. cbn in Hf1.
    apply Z.leb_le in Hf2. specialize (Hon Hf1).
    split; [|exact IH]. destruct (motion_now_of cfg f); lia.
  - exact IH.
Qed.

Lemma dwell_next q tr : forall r i t1 crop t2,
  dwell q r tr ->
  tr !! i = Some (t1, Rise crop) -> tr !! S i = Some (t2, Fall) ->
  q <= t2 - t1.
Proof.
  induction tr as [|[t e] tr IH]; intros r i t1 crop t2 Hd H1 H2;
    [discriminate|].
  destruct i as [|i].
  - cbn in H1. injection H1 as -> ->.
    destruct tr as [|[t' e'] tr]; [discriminate|].
    cbn in H2. injection H2 as -> ->. cbn in Hd. apply Hd.
  - cbn in H1, H2. destruct e; cbn in Hd.
    + eapply IH; eauto.
    + destruct Hd as [_ Hd]. eapply IH; eauto.
Qed.

(** X6. When the clock readings of the frames do not go backwards, every
    [on_fall] comes at least [quiet_sec] after the [on_rise] before it:
    once announced, motion stays announced for at least the quiet
    interval. *)
Theorem active_for_at_least_quiet (cfg : Config) (frames : list FrameIn)
    (i : nat) (t1 t2 : Z) (crop : option Image) :
  nondecreasing 0 frames ->
  loop cfg frames !! i = Some (t1, Rise crop) ->
  loop cfg frames !! S i = Some (t2, Fall) ->
  quiet cfg <= t2 - t1.
Proof.
  intros Hnd. apply dwell_next with (r := last_rise_ts init).
  apply loop_from_dwell with (t := 0); [|exact Hnd].
  unfold in_order. cbn. repeat split; lia.
Qed.

Lemma active_for_at_least_quiet_witness :
  nondecreasing 0 [motion_frame 10000; motion_frame 11000; still_frame 14000] /\
  loop run_py [motion_frame 10000; motion_frame 11000; still_frame 14000] =
    [(10000, Rise (Some (replicate 2 (replicate 3 black)))); (14000, Fall)] /\
  quiet run_py <= 14000 - 10000.
Proof.
  assert (Hnd : nondecreasing 0
                  [motion_frame 10000; motion_frame 11000; still_frame 14000])
    by (cbn; lia).
  split; [exact Hnd|]. split; [reflexivity|].
  exact (active_for_at_least_quiet run_py _ 0%nat 10000 14000 _ Hnd
           eq_refl eq_refl).
Defined.

(** ** Which contour is the largest *)

Lemma largest_from_first m cnts : forall best ba c,
  largest_from best ba cnts m = Some c ->
  (best = Some c /\
   forall c', c' ∈ cnts -> ~ (m < contourArea c' /\ ba < contourArea c')) \/
  (exists before after,
      cnts = before ++ c :: after /\
      m < contourArea c /\ ba < contourArea c /\
      (forall c', c' ∈ before -> m < contourArea c' ->
         contourArea c' < contourArea c) /\
      (forall c', c' ∈ after -> m < contourArea c' ->
         contourArea c' <= contourArea c)).
Proof.
  induction cnts as [|c0 rest IH]; intros best ba c; cbn [largest_from].
  - intros ->. left. split; [reflexivity|]. intros c' Hc'. inversion Hc'.
  - destruct ((m <? contourArea c0) && (ba <? contourArea c0)) eqn:Hq.
    + apply andb_prop in Hq as [Hm Hb].
      apply Z.ltb_lt in Hm. apply Z.ltb_lt in Hb. intros Hres. right.
      destruct (IH _ _ _ Hres)
        as [[Heq Hnone]|(before & after & -> & Hcm & Hcb & Hbef & Haft)].
      * injection Heq as <-. exists [], rest.
        repeat split; try assumption; [intros c' Hc'; inversion Hc'|].
        intros c' Hc' Hm'. specialize (Hnone c' Hc'). lia.
      * exists (c0 :: before), after.
        repeat split; try assumption; [lia|].
        intros c' Hc' Hm'. apply elem_of_cons in Hc' as [->|Hc']; [lia|].
        apply Hbef; assumption.
    + assert (Hq' : ~ (m < contourArea c0 /\ ba < contourArea c0)).
      { intros [Hm Hb]. apply Z.ltb_lt in Hm. apply Z.ltb_lt in Hb.
        rewrite Hm, Hb in Hq. discriminate. }
      intros Hres.
      destruct (IH _ _ _ Hres)
        as [[Heq Hnone]|(before & after & -> & Hcm & Hcb & Hbef & Haft)].
      * left. split; [exact Heq|].
        intros c' Hc'. apply elem_of_cons in Hc' as [->|Hc']; auto.
      * right. exists (c0 :: before), after.
        repeat split; try assumption.
        intros c' Hc' Hm'. apply elem_of_cons in Hc' as [->|Hc']; [lia|].
        apply Hbef; assumption.
Qed.

(** X7. Among contours of equal largest area [_largest_contour] returns
    the one [cv2.findContours] lists first: every qualifying contour
    listed before the result is strictly smaller, and none listed after
    it is larger. *)
Theorem largest_contour_is_the_first (cnts : list Contour) (m : Z)
    (c : Contour) :
  _largest_contour cnts m = Some c ->
  exists before after,
    cnts = before ++ c :: after /\
    (forall c', c' ∈ before -> qualifies m c' ->
       contourArea c' < contourArea c) /\
    (forall c', c' ∈ after -> qualifies m c' ->
       contourArea c' <= contourArea c).
Proof.
  unfold _largest_contour, qualifies. intros H.
  destruct (largest_from_first m cnts None 0 c H)
    as [[Heq _]|(before & after & -> & _ & _ & Hbef & Haft)]; [discriminate|].
  exists before, after. split; [reflexivity|]. split.
  - intros c' Hc' [Hm _]. auto.
  - intros c' Hc' [Hm _]. auto.
Qed.

Lemma largest_contour_is_the_first_witness :
  _largest_contour [blob_c; blob_a; blob_b] 2500 = Some blob_a /\
  exists before after,
    [blob_c; blob_a; blob_b] = before ++ blob_a :: after /\
    (forall c', c' ∈ before -> qualifies 2500 c' ->
       contourArea c' < contourArea blob_a) /\
    (forall c', c' ∈ after -> qualifies 2500 c' ->
       contourArea c' <= contourArea blob_a).
Proof.
  assert (H : _largest_contour [blob_c; blob_a; blob_b] 2500 = Some blob_a)
    by reflexivity.
  split; [exact H|].
  exact (largest_contour_is_the_first _ _ _ H).
Defined.

(** ** Rectangles that reach over the edge *)

Lemma py_slice_Forall {A} (P : A -> Prop) (l : list A) (a b : Z) :
  Forall P l -> Forall P (py_slice l a b).
Proof. intros H. unfold py_slice. apply Forall_take, Forall_drop, H. Qed.

Lemma py_slice_length_nonneg {A} (l : list A) (a b : Z) :
  0 <= a -> 0 <= b ->
  Z.of_nat (length (py_slice l a b)) =
  Z.max 0 (Z.min b (Z.of_nat (length l)) - Z.min a (Z.of_nat (length l))).
Proof.
  intros Ha Hb. unfold py_slice, slice_index.
  destruct (a <? 0) eqn:Ea; [apply Z.ltb_lt in Ea; lia|].
  destruct (b <? 0) eqn:Eb; [apply Z.ltb_lt in Eb; lia|].
  rewrite length_take, length_drop. lia.
Qed.

(** X8. For a rectangle with non-negative corner and sides, wherever it
    ends, and a non-negative pad, [_crop_with_pad] raises nothing and
    returns the part of the padded rectangle that lies in the frame: the
    corners are clamped to [0..W] and [0..H], and the crop has
    [max(0, y1 - y0)] rows of [max(0, x1 - x0)] pixels. *)
Theorem crop_is_clipped_to_frame (cfg : Config) (frame : Image)
    (rect : Rect) :
  rectangular frame ->
  0 <= rx rect -> 0 <= ry rect -> 0 <= rw rect -> 0 <= rh rect ->
  0 <= pad_of cfg (rw rect) (rh rect) ->
  let '(crop, (x0, y0, x1, y1)) := _crop_with_pad cfg frame rect in
  (0 <= x0 /\ 0 <= x1 <= shape_W frame) /\
  (0 <= y0 /\ 0 <= y1 <= shape_H frame) /\
  shape_H crop = Z.max 0 (y1 - y0) /\
  Forall (fun row => Z.of_nat (length row) = Z.max 0 (x1 - x0)) crop.
Proof.
  intros Hrect Hx Hy Hw Hh Hpad. unfold _crop_with_pad. cbn zeta.
  set (pad := pad_of cfg (rw rect) (rh rect)) in *.
  set (x0 := Z.max 0 (rx rect - pad)).
  set (y0 := Z.max 0 (ry rect - pad)).
  set (x1 := Z.min (shape_W frame) (rx rect + rw rect + pad)).
  set (y1 := Z.min (shape_H frame) (ry rect + rh rect + pad)).
  assert (HW : 0 <= shape_W frame) by (unfold shape_W; destruct frame; lia).
  assert (HH : 0 <= shape_H frame) by (unfold shape_H; lia).
  split; [lia|]. split; [lia|]. split.
  - unfold slice2d, shape_H. rewrite length_fmap.
    rewrite py_slice_length_nonneg by lia. fold (shape_H frame). lia.
  - unfold slice2d. apply Forall_fmap.
    eapply Forall_impl; [apply py_slice_Forall, Hrect|].
    intros row Hlen. cbn beta in Hlen.
    change (Z.of_nat (length (py_slice row x0 x1)) = Z.max 0 (x1 - x0)).
    rewrite py_slice_length_nonneg by lia. rewrite Hlen. lia.
Qed.

Lemma crop_is_clipped_to_frame_witness :
  rectangular frame_4x6 /\
  0 <= pad_of run_py (rw overhang) (rh overhang) /\
  _crop_with_pad run_py frame_4x6 overhang =
    (replicate 2 (replicate 2 black), (4, 2, 6, 4)) /\
  shape_H (_crop_with_pad run_py frame_4x6 overhang).1 = Z.max 0 (4 - 2).
Proof.
  assert (Hr : rectangular frame_4x6) by (repeat constructor).
  assert (Hp : 0 <= pad_of run_py (rw overhang) (rh overhang))
    by (vm_compute; discriminate).
  split; [exact Hr|]. split; [exact Hp|]. split; [reflexivity|].
  pose proof (crop_is_clipped_to_frame run_py frame_4x6 overhang Hr
                ltac:(cbn; lia) ltac:(cbn; lia) ltac:(cbn; lia)
                ltac:(cbn; lia) Hp) as H.
  destruct (_crop_with_pad run_py frame_4x6 overhang)
    as [crop [[[x0 y0] x1] y1]] eqn:E.
  injection E as <- <- <- <- <-.
  exact (proj1 (proj2 (proj2 H))).
Defined.

End TraceFacts.

(* ===================================================================== *)
(** * Further properties of the resources *)
(* ===================================================================== *)

Module ResourceFacts.
Import Server ServerFacts System.

(** ** Writing and reading [class] *)

Lemma lstrip_id l :
  (forall b, head l = Some b -> is_space b = false) -> lstrip l = l.
Proof.
  destruct l as [|b l]; [reflexivity|]. intros H. cbn [lstrip].
  rewrite (H b eq_refl). reflexivity.
Qed.

Lemma rstrip_id l :
  (forall b, last l = Some b -> is_space b = false) -> rstrip l = l.
Proof.
  intros H. unfold rstrip. rewrite lstrip_id.
  - apply reverse_involutive.
  - intros b Hb. apply H. rewrite <- head_reverse. exact Hb.
Qed.

Lemma strip_idempotent p : strip (strip p) = strip p.
Proof.
  destruct (strip_spec p) as (pre & post & _ & _ & _ & Hh & Hl).
  unfold strip at 1. rewrite (lstrip_id _ Hh). apply rstrip_id, Hl.
Qed.

Lemma or_empty_Some l : or_empty (Some l) = l.
Proof. destruct l; reflexivity. Qed.

(** X9. A GET on [class] after a PUT returns the trimmed payload of the
    PUT; the sequence of the resource has grown by one if that differs
    from the label before and not at all otherwise; and writing back what
    was read changes nothing and notifies nobody. *)
Theorem put_then_get_round_trip (request : Message) (r : ClassResource) :
  let '(r', ns, _) := render_put request r in
  payload (render_get_class r') = Some (strip (or_empty (payload request))) /\
  sequence (class_obs r') =
    (if decide (strip (or_empty (payload request)) = label r)
     then sequence (class_obs r) else S (sequence (class_obs r))) /\
  render_put (PUT (label r')) r' = (r', [], changed_ok).
Proof.
  pose proof (render_put_stores request r) as Hl.
  destruct (render_put request r) as [[r' ns] resp] eqn:E. cbn [fst] in Hl.
  split; [cbn; rewrite Hl; reflexivity|]. split.
  - unfold render_put in E. cbn zeta in E.
    destruct (decide (_ ≠ label r)) as [Hne|He];
      injection E as <- <- <-.
    + rewrite decide_False by exact Hne. reflexivity.
    + destruct (decide (_ = label r)) as [_|Hne]; [reflexivity|tauto].
  - apply render_put_same. cbn [PUT payload].
    rewrite or_empty_Some, Hl, strip_idempotent. reflexivity.
Qed.

(** ** What a run may change *)

Lemma updated_state_observers o :
  observers (updated_state o).1 = observers o /\
  sequence (updated_state o).1 = S (sequence o).
Proof. split; reflexivity. Qed.












(** ** Who writes what *)

Lemma on_rise_class c st : class_res (on_rise c st) = class_res st.
Proof.
  unfold on_rise, on_rise_states. cbn [snd].
  destruct (set_motion_fields (bytes_of "true")
              (rise_last c (rise_image c st))) as (_ & _ & -> & _).
  destruct (rise_last_fields c (rise_image c st)) as (_ & _ & -> & _).
  apply rise_image_rest.
Qed.

Lemma set_motion_same v st : motion (motion_res st) = v -> set_motion v st = st.
Proof.
  intros H. unfold set_motion. rewrite (set_same _ _ H), app_nil_r.
  destruct st. reflexivity.
Qed.

Lemma put_class_keeps request st :
  motion_res (put_class request st).1 = motion_res st /\
  last_res (put_class request st).1 = last_res st /\
  image_res (put_class request st).1 = image_res st.
Proof.
  unfold put_class.
  destruct (render_put request (class_res st)) as [[r ns] m]. auto.
Qed.

(** X11. Each writer keeps to its own resources. [on_rise] never touches
    [class]; [on_fall] touches [motion] only, and is no write at all when
    [motion] already reads [b"false"]; a PUT on [class] touches neither
    [motion], nor [lastDetection], nor [image]. *)
Theorem writers_keep_to_their_resources (st : Site) :
  (forall c, class_res (on_rise c st) = class_res st) /\
  (last_res (on_fall st) = last_res st /\
   image_res (on_fall st) = image_res st /\
   class_res (on_fall st) = class_res st) /\
  (motion (motion_res st) = bytes_of "false" -> on_fall st = st) /\
  (forall request,
      motion_res (put_class request st).1 = motion_res st /\
      last_res (put_class request st).1 = last_res st /\
      image_res (put_class request st).1 = image_res st).
Proof.
  split; [intros c; apply on_rise_class|]. split; [|split].
  - unfold on_fall.
    destruct (set_motion_fields (bytes_of "false") st) as (-> & -> & -> & _).
    auto.
  - apply set_motion_same.
  - intros request. apply put_class_keeps.
Qed.

Lemma writers_keep_to_their_resources_witness :
  motion (motion_res fresh_site) = bytes_of "false" /\
  on_fall fresh_site = fresh_site.
Proof.
  assert (H : motion (motion_res fresh_site) = bytes_of "false")
    by reflexivity.
  split; [exact H|].
  exact (proj1 (proj2 (proj2 (writers_keep_to_their_resources fresh_site))) H).
Defined.

(** ** Trimming, further *)

Lemma lstrip_spaces pre l : spaces pre -> lstrip (pre ++ l) = lstrip l.
Proof.
  induction 1 as [|b pre Hb _ IH]; [reflexivity|].
  cbn [app lstrip]. rewrite Hb. exact IH.
Qed.

Lemma rstrip_spaces l post : spaces post -> rstrip (l ++ post) = rstrip l.
Proof.
  intros Hpost. unfold rstrip. rewrite reverse_app.
  rewrite lstrip_spaces by (apply Forall_reverse, Hpost). reflexivity.
Qed.

(** X21. [strip] removes the whitespace at the two ends and nothing
    else: a payload made of whitespace, then a core that neither starts
    nor ends with whitespace, then whitespace, is trimmed to exactly the
    core, whitespace inside the core included. *)
Theorem strip_keeps_the_core (pre core post : bytes) :
  spaces pre -> spaces post ->
  (forall b, head core = Some b -> is_space b = false) ->
  (forall b, last core = Some b -> is_space b = false) ->
  strip (pre ++ core ++ post) = core.
Proof.
  intros Hpre Hpost Hh Hl. unfold strip. rewrite lstrip_spaces by exact Hpre.
  destruct core as [|b core].
  - cbn [app]. rewrite <- (app_nil_r post) at 1.
    rewrite lstrip_spaces by exact Hpost. reflexivity.
  - rewrite lstrip_id.
    + rewrite rstrip_spaces by exact Hpost. apply rstrip_id, Hl.
    + intros b' Hb'. apply Hh. exact Hb'.
Qed.

Lemma strip_keeps_the_core_witness :
  spaces (bytes_of "  ") /\ spaces (bytes_of " ") /\
  strip (bytes_of "  " ++ bytes_of "new york" ++ bytes_of " ") =
    bytes_of "new york".
Proof.
  assert (H1 : spaces (bytes_of "  ")) by (repeat constructor).
  assert (H2 : spaces (bytes_of " ")) by (repeat constructor).
  split; [exact H1|]. split; [exact H2|].
  apply (strip_keeps_the_core _ (bytes_of "new york") _ H1 H2).
  - intros b [= <-]. reflexivity.
  - intros b [= <-]. reflexivity.
Defined.

(** X22. A PUT on [class] whose payload is missing, empty or nothing but
    whitespace is accepted like any other and clears the label. *)
Theorem blank_put_clears_label (request : Message) (r : ClassResource) :
  spaces (or_empty (payload request)) ->
  label (render_put request r).1.1 = [] /\
  (render_put request r).2 = changed_ok.
Proof.
  intros Hs. rewrite render_put_stores, render_put_response.
  split; [|reflexivity]. unfold strip.
  rewrite <- (app_nil_r (or_empty (payload request))).
  rewrite lstrip_spaces by exact Hs. reflexivity.
Qed.

Lemma blank_put_clears_label_witness :
  spaces (or_empty (payload (PUT (bytes_of "  ")))) /\
  label (render_put (PUT (bytes_of "  ")) person_class).1.1 = [].
Proof.
  assert (H : spaces (or_empty (payload (PUT (bytes_of "  ")))))
    by (repeat constructor).
  split; [exact H|].
  exact (proj1 (blank_put_clears_label _ person_class H)).
Defined.

(** ** When a rise notifies *)

(** X23. What [on_rise] schedules is the notifications of
    [lastDetection] followed by those of [motion]. The observers of
    [lastDetection] are notified, once each, exactly when the time string
    of the rise differs from the one stored; a rise within the same
    second as the one before notifies none of them, whatever it does to
    [image]. *)
Theorem rise_notifies_on_new_timestamp (c : RiseCall) (st : Site) :
  exists nl nm,
    outbox (on_rise c st) =
      outbox st ++ (pair p_lastdetection <$> nl) ++ (pair p_motion <$> nm) /\
    (ts (last_res st) = encode (strftime_now c) -> nl = []) /\
    (ts (last_res st) <> encode (strftime_now c) ->
     forall p, p ∈ observers (last_obs (last_res st)) ->
               notified p nl = 1%nat).
Proof.
  unfold on_rise, on_rise_states. cbn [snd].
  destruct (rise_image_rest c st) as (_ & Hl & _ & Ho).
  set (st1 := rise_image c st) in *.
  destruct (set_motion_fields (bytes_of "true") (rise_last c st1))
    as (_ & _ & _ & _ & nm & ->).
  unfold rise_last, set_now. rewrite Hl, Ho.
  destruct (decide (encode (strftime_now c) ≠ ts (last_res st))) as [Hne|He].
  - eexists _, nm. cbn [outbox]. rewrite app_assoc.
    split; [reflexivity|]. split; [congruence|].
    intros _ p Hp. apply updated_state_each, Hp.
  - exists [], nm. cbn [outbox]. rewrite app_assoc.
    split; [reflexivity|]. split; [reflexivity|].
    intros Hne. exfalso. apply He. congruence.
Qed.

Lemma rise_notifies_on_new_timestamp_witness :
  ts (last_res (on_rise rise1 fresh_site)) = encode (strftime_now rise1) /\
  exists nl nm,
    outbox (on_rise rise1 (on_rise rise1 fresh_site)) =
      outbox (on_rise rise1 fresh_site)
        ++ (pair p_lastdetection <$> nl) ++ (pair p_motion <$> nm) /\
    nl = [].
Proof.
  assert (H : ts (last_res (on_rise rise1 fresh_site)) =
              encode (strftime_now rise1)) by (vm_compute; reflexivity).
  split; [exact H|].
  destruct (rise_notifies_on_new_timestamp rise1 (on_rise rise1 fresh_site))
    as (nl & nm & Ho & Hsame & _).
  exists nl, nm. split; [exact Ho|exact (Hsame H)].
Defined.

End ResourceFacts.

(* ===================================================================== *)
(** * Properties of the parts put together *)
(* ===================================================================== *)

Module SystemFacts.
Import Detector DetectorFacts Traces TraceFacts.
Import Server ServerFacts ResourceFacts System.

(** ** From the detector's crop to the stored image *)

(** X12. The crop [_crop_with_pad] cuts for a rectangle of at least one
    pixel within the frame is never empty, so the size test of [on_rise]
    lets it through: what the server stores for it is whatever
    [cv2.imencode] returns. *)
Theorem detector_crop_passes_size_test (cfg : Config) (frame : Image)
    (rect : Rect) (env : Env) (k : nat) :
  rectangular frame -> within frame rect ->
  1 <= rw rect -> 1 <= rh rect ->
  0 <= pad_of cfg (rw rect) (rh rect) ->
  0 < size (_crop_with_pad cfg frame rect).1 /\
  stored_jpeg (call_of env k (Some (_crop_with_pad cfg frame rect).1)) =
    cv2_imencode env (_crop_with_pad cfg frame rect).1.
Proof.
  intros Hrect Hin Hw Hh Hpad.
  pose proof (crop_with_pad_spec cfg frame rect Hrect Hin Hpad) as H.
  destruct (_crop_with_pad cfg frame rect) as [crop [[[x0 y0] x1] y1]].
  cbn [fst].
  destruct H as (_ & _ & Hx0 & Hx1 & Hy0 & Hy1 & Hrows & Hcols & _).
  assert (Hs : 0 < size crop).
  { unfold size. destruct crop as [|row crop];
      [unfold shape_H in Hrows; cbn in Hrows; lia|].
    apply Forall_cons in Hcols as [Hrow _]. cbn [concat].
    rewrite length_app. lia. }
  split; [exact Hs|].
  unfold stored_jpeg, call_of. cbn.
  apply Z.ltb_lt in Hs. rewrite Hs. reflexivity.
Qed.

Lemma detector_crop_passes_size_test_witness :
  rectangular frame_4x6 /\ within frame_4x6 (boundingRect blob) /\
  0 < size (_crop_with_pad run_py frame_4x6 (boundingRect blob)).1.
Proof.
  assert (Hr : rectangular frame_4x6) by (repeat constructor).
  assert (Hw : within frame_4x6 (boundingRect blob))
    by (unfold within; repeat split; vm_compute; discriminate).
  split; [exact Hr|]. split; [exact Hw|].
  exact (proj1 (detector_crop_passes_size_test run_py frame_4x6
                  (boundingRect blob) plain_env 0 Hr Hw
                  ltac:(cbn; lia) ltac:(cbn; lia)
                  ltac:(vm_compute; discriminate))).
Defined.

(** ** [motion] follows the detector *)

Lemma run_cons st op ops : run st (op :: ops) = run (apply_op st op) ops.
Proof. reflexivity. Qed.

Lemma set_motion_seq v st :
  motion (motion_res st) <> v ->
  sequence (motion_obs (motion_res (set_motion v st))) =
  S (sequence (motion_obs (motion_res st))).
Proof.
  intros Hne. unfold set_motion, set.
  rewrite decide_True by exact Hne. reflexivity.
Qed.

Lemma on_rise_motion c st :
  motion (motion_res (on_rise c st)) = bytes_of "true" /\
  (motion (motion_res st) <> bytes_of "true" ->
   sequence (motion_obs (motion_res (on_rise c st))) =
   S (sequence (motion_obs (motion_res st)))).
Proof.
  unfold on_rise, on_rise_states. cbn [snd].
  set (st2 := rise_last c (rise_image c st)).
  assert (Hm : motion_res st2 = motion_res st).
  { unfold st2.
    destruct (rise_last_fields c (rise_image c st)) as (-> & _).
    apply rise_image_rest. }
  split; [apply set_motion_fields|].
  intros Hne. rewrite set_motion_seq by (rewrite Hm; exact Hne).
  rewrite Hm. reflexivity.
Qed.

Lemma ends_active_loop cfg frames : forall s,
  ends_active (motion_on s) (loop_from cfg s frames) =
  motion_on (state_from cfg s frames).
Proof.
  induction frames as [|f frames IH]; intros s; [reflexivity|].
  cbn [loop_from state_from]. rewrite <- IH, step_motion_on.
  destruct (step_events cfg s f) as [crop ->].
  destruct (rises_at cfg s f), (falls_at cfg s f); reflexivity.
Qed.

Lemma run_follows_trace env ops : forall tr k st on,
  alternates on tr ->
  motion (motion_res st) = motion_bytes on ->
  from_detector ops = callbacks_of env k tr ->
  motion (motion_res (run st ops)) = motion_bytes (ends_active on tr) /\
  sequence (motion_obs (motion_res (run st ops))) =
  (sequence (motion_obs (motion_res st)) + length tr)%nat.
Proof.
  induction ops as [|op ops IH]; intros tr k st on Halt Hm Hops.
  - destruct tr as [|[t [crop|]] tr]; try discriminate.
    cbn. split; [exact Hm|lia].
  - rewrite run_cons. unfold from_detector in Hops.
    destruct op as [c| |request].
    + rewrite filter_cons_True in Hops by reflexivity.
      destruct tr as [|[t [crop|]] tr]; try discriminate.
      cbn [callbacks_of] in Hops. injection Hops as -> Hops.
      destruct Halt as [-> Halt]. cbn [apply_op ends_active length].
      destruct (on_rise_motion (call_of env k crop) st) as [Hv Hs].
      destruct (IH tr (S k) _ true Halt Hv Hops) as [-> ->].
      rewrite Hs by (rewrite Hm; discriminate). split; [reflexivity|lia].
    + rewrite filter_cons_True in Hops by reflexivity.
      destruct tr as [|[t [crop|]] tr]; try discriminate.
      cbn [callbacks_of] in Hops. injection Hops as Hops.
      destruct Halt as [-> Halt]. cbn [apply_op ends_active length].
      unfold on_fall.
      destruct (IH tr k (set_motion (bytes_of "false") st) false Halt
                  ltac:(apply set_motion_fields) Hops) as [-> ->].
      rewrite set_motion_seq by (rewrite Hm; discriminate).
      split; [reflexivity|lia].
    + rewrite filter_cons_False in Hops by (cbn; discriminate).
      cbn [apply_op].
      pose proof (proj1 (put_class_keeps request st)) as Hp.
      apply (IH tr k (put_class request st).1 on Halt) in Hops;
        [|rewrite Hp; exact Hm].
      rewrite Hp in Hops. exact Hops.
Qed.

Lemma start_follows env cfg frames ops o1 o2 o3 :
  from_detector ops = detector_thread env cfg frames ->
  motion (motion_res (run (start o1 o2 o3) ops)) =
    motion_bytes (motion_on (state_after cfg frames)) /\
  sequence (motion_obs (motion_res (run (start o1 o2 o3) ops))) =
    length (loop cfg frames).
Proof.
  intros Hops. unfold state_after. rewrite <- ends_active_loop.
  apply (run_follows_trace env ops (loop cfg frames) 0%nat
           (start o1 o2 o3) false).
  - apply (loop_from_alternates cfg frames init).
  - reflexivity.
  - exact Hops.
Qed.

(** X13. With the detector thread of [run.py] feeding the site made by
    [start_server], and whatever PUTs on [class] arrive in between,
    [motion] reads [b"true"] exactly when the detector is active after
    the frames processed, and [b"false"] otherwise. *)
Theorem motion_follows_detector (env : Env) (cfg : Config)
    (frames : list FrameIn) (ops : list Op) (o1 o2 o3 : gset nat) :
  from_detector ops = detector_thread env cfg frames ->
  motion (motion_res (run (start o1 o2 o3) ops)) =
  motion_bytes (motion_on (state_after cfg frames)).
Proof. intros Hops. exact (proj1 (start_follows env _ _ _ o1 o2 o3 Hops)). Qed.

Lemma motion_follows_detector_witness :
  from_detector
    (PutClass (PUT (bytes_of "person"))
       :: detector_thread plain_env run_py one_episode) =
    detector_thread plain_env run_py one_episode /\
  motion (motion_res
            (run (start ∅ ∅ ∅)
               (PutClass (PUT (bytes_of "person"))
                  :: detector_thread plain_env run_py one_episode))) =
    bytes_of "false".
Proof.
  assert (H : from_detector
                (PutClass (PUT (bytes_of "person"))
                   :: detector_thread plain_env run_py one_episode) =
              detector_thread plain_env run_py one_episode) by reflexivity.
  split; [exact H|].
  exact (motion_follows_detector plain_env run_py one_episode _ ∅ ∅ ∅ H).
Defined.

(** X14. In the same setting every callback of the detector changes
    [motion]: its sequence is the number of [on_rise] and [on_fall] calls
    made so far, so each observer of [motion] is notified of every edge. *)
Theorem motion_sequence_counts_edges (env : Env) (cfg : Config)
    (frames : list FrameIn) (ops : list Op) (o1 o2 o3 : gset nat) :
  from_detector ops = detector_thread env cfg frames ->
  sequence (motion_obs (motion_res (run (start o1 o2 o3) ops))) =
  length (loop cfg frames).
Proof. intros Hops. exact (proj2 (start_follows env _ _ _ o1 o2 o3 Hops)). Qed.

Lemma motion_sequence_counts_edges_witness :
  from_detector (detector_thread plain_env run_py one_episode) =
    detector_thread plain_env run_py one_episode /\
  sequence (motion_obs (motion_res
              (run (start ∅ ∅ ∅)
                 (detector_thread plain_env run_py one_episode)))) = 2%nat.
Proof.
  assert (H : from_detector (detector_thread plain_env run_py one_episode) =
              detector_thread plain_env run_py one_episode) by reflexivity.
  split; [exact H|].
  exact (motion_sequence_counts_edges plain_env run_py one_episode _ ∅ ∅ ∅ H).
Defined.

(** ** What the client reads and writes *)

Lemma apply_op_ts_valid st op :
  valid_utf8 (ts (last_res st)) = true ->
  valid_utf8 (ts (last_res (apply_op st op))) = true.
Proof.
  intros Hv. destruct op as [c| |request]; cbn [apply_op].
  - unfold on_rise, on_rise_states. cbn [snd].
    destruct (set_motion_fields (bytes_of "true")
                (rise_last c (rise_image c st))) as (-> & _).
    destruct (rise_last_fields c (rise_image c st)) as (_ & _ & _ & -> & _).
    apply valid_utf8_encode.
  - unfold on_fall.
    destruct (set_motion_fields (bytes_of "false") st) as (-> & _). exact Hv.
  - destruct (put_class_keeps request st) as (_ & -> & _). exact Hv.
Qed.

Lemma run_ts_valid ops : forall st,
  valid_utf8 (ts (last_res st)) = true ->
  valid_utf8 (ts (last_res (run st ops))) = true.
Proof.
  induction ops as [|op ops IH]; intros st Hv; [exact Hv|].
  rewrite run_cons. apply IH, apply_op_ts_valid, Hv.
Qed.

(** X15. Whatever the site made by [start_server] has gone through, the
    payload a GET on [lastdetection] returns is UTF-8; so the client's
    first read never fails in [r.payload.decode()], and the client goes on
    to start a task for every notification delivered. *)
Theorem baseline_read_decodes (o1 o2 o3 : gset nat) (ops : list Op)
    (k : nat) (ds : list Classifier.Delivery) :
  let p := ts (last_res (run (start o1 o2 o3) ops)) in
  payload (render_get_last (last_res (run (start o1 o2 o3) ops))) = Some p /\
  valid_utf8 p = true /\
  (Classifier.main (Some (Classifier.mkNotification k p)) ds).2 =
    Classifier.handle_notification <$> ds.
Proof.
  cbn zeta.
  assert (Hv : valid_utf8 (ts (last_res (run (start o1 o2 o3) ops))) = true)
    by (apply run_ts_valid; reflexivity).
  split; [reflexivity|]. split; [exact Hv|].
  unfold Classifier.main. cbn [snd Classifier.n_payload]. rewrite Hv.
  reflexivity.
Qed.

Lemma serve_sent_by_client st req :
  sent_by_client req ->
  serve st req = st \/
  serve st req = (put_class (PUT (bytes_of "unknown")) st).1.
Proof.
  intros [d Hd]. rewrite ClassifierFacts.handle_notification_requests in Hd.
  apply elem_of_cons in Hd as [->|Hd]; [left; reflexivity|].
  destruct (Classifier.image_reply d); [|inversion Hd].
  apply list_elem_of_singleton in Hd as ->. right. reflexivity.
Qed.

Lemma put_unknown_settled st :
  label (class_res st) = bytes_of "unknown" ->
  (put_class (PUT (bytes_of "unknown")) st).1 = st.
Proof.
  intros Hl. unfold put_class.
  rewrite render_put_same by (rewrite Hl; reflexivity).
  cbn [fst]. rewrite app_nil_r. destruct st. reflexivity.
Qed.

Lemma serve_settled reqs : forall st,
  label (class_res st) = bytes_of "unknown" ->
  Forall sent_by_client reqs ->
  foldl serve st reqs = st.
Proof.
  induction reqs as [|req reqs IH]; intros st Hl Hall; [reflexivity|].
  apply Forall_cons in Hall as [Hreq Hall]. cbn [foldl].
  destruct (serve_sent_by_client st req Hreq) as [->| ->].
  - apply IH; assumption.
  - rewrite put_unknown_settled by exact Hl. apply IH; assumption.
Qed.

(** X16. The labels the client writes settle the resource. However many
    requests of the client reach the server, [class] ends up as it was or
    reading [b"unknown"], its sequence grows by one at most, every
    observer of [class] gets at most one notification for all of them
    together, and the other resources are not touched. *)
Theorem classifier_writes_settle (reqs : list Classifier.Request)
    (st : Site) :
  Forall sent_by_client reqs ->
  let st' := foldl serve st reqs in
  (label (class_res st') = label (class_res st) \/
   label (class_res st') = bytes_of "unknown") /\
  (sequence (class_obs (class_res st')) <=
     S (sequence (class_obs (class_res st))))%nat /\
  (exists ns,
      outbox st' = outbox st ++ (pair p_class <$> ns) /\
      forall p, (notified p ns <= 1)%nat) /\
  motion_res st' = motion_res st /\ last_res st' = last_res st /\
  image_res st' = image_res st.
Proof.
  cbn zeta. revert st.
  induction reqs as [|req reqs IH]; intros st Hall.
  - cbn [foldl]. split; [left; reflexivity|]. split; [lia|].
    split; [|auto]. exists []. split; [symmetry; apply app_nil_r|].
    intros p. cbn. lia.
  - apply Forall_cons in Hall as [Hreq Hall]. cbn [foldl].
    destruct (serve_sent_by_client st req Hreq) as [->|Hput];
      [apply IH, Hall|].
    rewrite Hput.
    set (st1 := (put_class (PUT (bytes_of "unknown")) st).1).
    assert (Hl1 : label (class_res st1) = bytes_of "unknown").
    { unfold st1, put_class.
      pose proof (render_put_stores (PUT (bytes_of "unknown")) (class_res st))
        as Hs.
      destruct (render_put (PUT (bytes_of "unknown")) (class_res st))
        as [[r ns] m]. exact Hs. }
    rewrite (serve_settled reqs st1 Hl1 Hall).
    split; [right; exact Hl1|].
    destruct (put_class_keeps (PUT (bytes_of "unknown")) st) as (Hm & Hla & Hi).
    fold st1 in Hm, Hla, Hi.
    split; [|split; [|auto]].
    + unfold st1, put_class, render_put. cbn zeta.
      destruct (decide (_ ≠ label (class_res st))); cbn; lia.
    + unfold st1, put_class, render_put. cbn zeta.
      destruct (decide (_ ≠ label (class_res st))); cbn.
      * eexists. split; [reflexivity|]. intros p. apply updated_state_once.
      * exists []. split; [reflexivity|]. intros p. cbn. lia.
Qed.

Lemma classifier_writes_settle_witness :
  Forall sent_by_client
    [Classifier.GET Classifier.PATH_IMAGE None;
     Classifier.PUT Classifier.PATH_CLASS (bytes_of "unknown");
     Classifier.PUT Classifier.PATH_CLASS (bytes_of "unknown")] /\
  (sequence (class_obs (class_res
      (foldl serve fresh_site
         [Classifier.GET Classifier.PATH_IMAGE None;
          Classifier.PUT Classifier.PATH_CLASS (bytes_of "unknown");
          Classifier.PUT Classifier.PATH_CLASS (bytes_of "unknown")]))) <=
     S (sequence (class_obs (class_res fresh_site))))%nat.
Proof.
  assert (Hg : sent_by_client (Classifier.GET Classifier.PATH_IMAGE None)).
  { exists (Classifier.mkDelivery Classifier.baseline (Some [])).
    left. }
  assert (Hp : sent_by_client
                 (Classifier.PUT Classifier.PATH_CLASS (bytes_of "unknown"))).
  { exists (Classifier.mkDelivery Classifier.baseline (Some [])).
    right. left. }
  assert (H : Forall sent_by_client
                [Classifier.GET Classifier.PATH_IMAGE None;
                 Classifier.PUT Classifier.PATH_CLASS (bytes_of "unknown");
                 Classifier.PUT Classifier.PATH_CLASS (bytes_of "unknown")]).
  { repeat constructor; assumption. }
  split; [exact H|].
  exact (proj1 (proj2 (classifier_writes_settle _ fresh_site H))).
Defined.

(** ** [image] and [lastDetection] follow the detector *)

Lemma on_rise_jpeg c st :
  jpeg (image_res (on_rise c st)) =
  default (jpeg (image_res st)) (stored_jpeg c).
Proof.
  unfold on_rise, on_rise_states. cbn [snd].
  destruct (set_motion_fields (bytes_of "true")
              (rise_last c (rise_image c st))) as (_ & -> & _).
  destruct (rise_last_fields c (rise_image c st)) as (_ & -> & _).
  apply rise_image_jpeg.
Qed.

Lemma on_rise_ts c st :
  ts (last_res (on_rise c st)) = encode (strftime_now c).
Proof.
  unfold on_rise, on_rise_states. cbn [snd].
  destruct (set_motion_fields (bytes_of "true")
              (rise_last c (rise_image c st))) as (-> & _).
  apply rise_last_fields.
Qed.

Lemma on_fall_keeps st :
  last_res (on_fall st) = last_res st /\ image_res (on_fall st) = image_res st.
Proof.
  unfold on_fall.
  destruct (set_motion_fields (bytes_of "false") st) as (-> & -> & _). auto.
Qed.

Lemma stored_jpeg_call env k t crop :
  stored_jpeg (call_of env k crop) = snapshot_of env (t, Rise crop).
Proof. destruct crop; reflexivity. Qed.

Lemma run_image_follows env ops : forall tr k st,
  from_detector ops = callbacks_of env k tr ->
  jpeg (image_res (run st ops)) =
  default (jpeg (image_res st)) (last (omap (snapshot_of env) tr)).
Proof.
  induction ops as [|op ops IH]; intros tr k st Hops.
  - destruct tr as [|[t [crop|]] tr]; try discriminate. reflexivity.
  - rewrite run_cons. unfold from_detector in Hops.
    destruct op as [c| |request].
    + rewrite filter_cons_True in Hops by reflexivity.
      destruct tr as [|[t [crop|]] tr]; try discriminate.
      cbn [callbacks_of] in Hops. injection Hops as -> Hops.
      cbn [apply_op]. rewrite (IH tr (S k) _ Hops), on_rise_jpeg.
      rewrite (stored_jpeg_call env k t crop). cbn [omap list_omap].
      destruct (snapshot_of env (t, Rise crop)) as [buf|]; [|reflexivity].
      rewrite last_cons. cbn [default].
      destruct (last (omap (snapshot_of env) tr)); reflexivity.
    + rewrite filter_cons_True in Hops by reflexivity.
      destruct tr as [|[t [crop|]] tr]; try discriminate.
      cbn [callbacks_of] in Hops. injection Hops as Hops.
      cbn [apply_op]. rewrite (IH tr k _ Hops).
      destruct (on_fall_keeps st) as [_ ->]. reflexivity.
    + rewrite filter_cons_False in Hops by (cbn; discriminate).
      cbn [apply_op]. rewrite (IH tr k _ Hops).
      destruct (put_class_keeps request st) as (_ & _ & ->). reflexivity.
Qed.

(** X24. With the detector thread feeding the site, [image] holds the
    encoding of the most recent crop that was there, not empty and
    encoded, and is empty as long as there was none; PUTs on [class] in
    between make no difference. *)
Theorem image_follows_detector (env : Env) (cfg : Config)
    (frames : list FrameIn) (ops : list Op) (o1 o2 o3 : gset nat) :
  from_detector ops = detector_thread env cfg frames ->
  jpeg (image_res (run (start o1 o2 o3) ops)) =
  default [] (last (omap (snapshot_of env) (loop cfg frames))).
Proof.
  intros Hops.
  exact (run_image_follows env ops _ 0%nat (start o1 o2 o3) Hops).
Qed.

Lemma image_follows_detector_witness :
  from_detector (detector_thread plain_env run_py one_episode) =
    detector_thread plain_env run_py one_episode /\
  jpeg (image_res (run (start ∅ ∅ ∅)
                     (detector_thread plain_env run_py one_episode))) =
    bytes_of "JPEG".
Proof.
  assert (H : from_detector (detector_thread plain_env run_py one_episode) =
              detector_thread plain_env run_py one_episode) by reflexivity.
  split; [exact H|].
  exact (image_follows_detector plain_env run_py one_episode _ ∅ ∅ ∅ H).
Defined.

Lemma run_ts_follows env ops : forall tr k st,
  from_detector ops = callbacks_of env k tr ->
  ts (last_res (run st ops)) =
  match length (rise_times tr) with
  | O => ts (last_res st)
  | S n => encode (strftime env (k + n))
  end.
Proof.
  induction ops as [|op ops IH]; intros tr k st Hops.
  - destruct tr as [|[t [crop|]] tr]; try discriminate. reflexivity.
  - rewrite run_cons. unfold from_detector in Hops.
    destruct op as [c| |request].
    + rewrite filter_cons_True in Hops by reflexivity.
      destruct tr as [|[t [crop|]] tr]; try discriminate.
      cbn [callbacks_of] in Hops. injection Hops as -> Hops.
      cbn [apply_op]. rewrite (IH tr (S k) _ Hops), on_rise_ts.
      change (rise_times ((t, Rise crop) :: tr)) with (t :: rise_times tr).
      cbn [length]. destruct (length (rise_times tr)) as [|n].
      * rewrite Nat.add_0_r. reflexivity.
      * rewrite Nat.add_succ_r. reflexivity.
    + rewrite filter_cons_True in Hops by reflexivity.
      destruct tr as [|[t [crop|]] tr]; try discriminate.
      cbn [callbacks_of] in Hops. injection Hops as Hops.
      cbn [apply_op]. rewrite (IH tr k _ Hops).
      destruct (on_fall_keeps st) as [-> _]. reflexivity.
    + rewrite filter_cons_False in Hops by (cbn; discriminate).
      cbn [apply_op]. rewrite (IH tr k _ Hops).
      destruct (put_class_keeps request st) as (_ & -> & _). reflexivity.
Qed.

(** X25. In the same setting [lastDetection] holds the time string of the
    most recent [on_rise] call, and is empty before the first rise. *)
Theorem last_detection_follows_detector (env : Env) (cfg : Config)
    (frames : list FrameIn) (ops : list Op) (o1 o2 o3 : gset nat) :
  from_detector ops = detector_thread env cfg frames ->
  ts (last_res (run (start o1 o2 o3) ops)) =
  match length (rise_times (loop cfg frames)) with
  | O => []
  | S n => encode (strftime env n)
  end.
Proof.
  intros Hops.
  exact (run_ts_follows env ops _ 0%nat (start o1 o2 o3) Hops).
Qed.

Lemma last_detection_follows_detector_witness :
  from_detector (detector_thread plain_env run_py one_episode) =
    detector_thread plain_env run_py one_episode /\
  ts (last_res (run (start ∅ ∅ ∅)
                  (detector_thread plain_env run_py one_episode))) =
    bytes_of "2025-01-01_10-00-00".
Proof.
  assert (H : from_detector (detector_thread plain_env run_py one_episode) =
              detector_thread plain_env run_py one_episode) by reflexivity.
  split; [exact H|].
  exact (last_detection_follows_detector plain_env run_py one_episode _
           ∅ ∅ ∅ H).
Defined.

End SystemFacts.

(* ===================================================================== *)
(** * Further properties of the MQTT classifier *)
(* ===================================================================== *)

Module TopicFacts.
Import Mqtt MqttFacts Topics.

(** ** The levels of a topic *)

Lemma split_nonempty s : split s <> [].
Proof.
  destruct s as [|c s]; [discriminate|]. cbn [split].
  destruct (Ascii.eqb c slash); [discriminate|].
  destruct (split s); discriminate.
Qed.

Lemma split_length s : length (split s) = S (count_slash s).
Proof.
  induction s as [|c s IH]; [reflexivity|]. cbn [split count_slash].
  destruct (Ascii.eqb c slash); [cbn; rewrite IH; reflexivity|].
  destruct (split s) as [|h t] eqn:E; [destruct (split_nonempty s E)|].
  cbn in *. exact IH.
Qed.

Lemma split_inv s : forall h t,
  split s = h :: t ->
  no_slash h = true /\
  match t with
  | [] => s = h
  | _ :: _ => exists s', s = h +:+ String slash s' /\ split s' = t
  end.
Proof.
  induction s as [|c s IH]; intros h t; cbn [split].
  - intros [= <- <-]. split; reflexivity.
  - destruct (Ascii.eqb c slash) eqn:Ec.
    + intros [= <- <-]. split; [reflexivity|].
      apply Ascii.eqb_eq in Ec as ->.
      destruct (split s) as [|h' t'] eqn:E; [destruct (split_nonempty s E)|].
      exists s. split; [reflexivity|exact E].
    + destruct (split s) as [|h' t'] eqn:E; [destruct (split_nonempty s E)|].
      intros [= <- <-]. destruct (IH h' t' eq_refl) as [Hh Ht].
      split; [cbn [no_slash]; rewrite Ec, Hh; reflexivity|].
      destruct t' as [|x t'].
      * rewrite Ht. reflexivity.
      * destruct Ht as (s' & -> & Hs'). exists s'. split; [reflexivity|exact Hs'].
Qed.

Lemma split_levels s : Forall (fun level => no_slash level = true) (split s).
Proof.
  remember (length (split s)) as n eqn:Hn. revert s Hn.
  induction n as [|n IH]; intros s Hn.
  - destruct (split s) eqn:E; [destruct (split_nonempty s E)|discriminate].
  - destruct (split s) as [|h t] eqn:E; [discriminate|].
    destruct (split_inv s h t E) as [Hh Ht]. constructor; [exact Hh|].
    destruct t as [|x t]; [constructor|].
    destruct Ht as (s' & _ & Hs'). rewrite <- Hs'. apply IH.
    rewrite Hs'. cbn [length] in Hn |- *. lia.
Qed.

Lemma cam_id_no_slash topic : no_slash (cam_id_of topic) = true.
Proof.
  unfold cam_id_of. destruct (4 <=? length (split topic))%nat; [|reflexivity].
  destruct (split topic !! 2%nat) as [level|] eqn:E; [|reflexivity].
  cbn [default]. apply list_elem_of_lookup_2 in E.
  exact (proj1 (Forall_forall _ _) (split_levels topic) level E).
Qed.

(** X17. The device id [on_message] reads from a topic is ["unknown"]
    when the topic has fewer than four levels, and the third level when
    it has four or more, however many follow: the topic then reads
    [a/b/<id>/rest] with no ["/"] in [a], [b] or the id. *)
Theorem cam_id_is_third_level (topic : string) :
  ((count_slash topic < 3)%nat -> cam_id_of topic = "unknown") /\
  ((3 <= count_slash topic)%nat ->
   exists a b rest,
     topic = a +:+ String slash (b +:+ String slash
               (cam_id_of topic +:+ String slash rest)) /\
     no_slash a = true /\ no_slash b = true /\
     no_slash (cam_id_of topic) = true).
Proof.
  pose proof (split_length topic) as Hlen. split; intros Hc.
  - unfold cam_id_of.
    destruct (Nat.leb_spec 4 (length (split topic))); [lia|reflexivity].
  - unfold cam_id_of.
    destruct (Nat.leb_spec 4 (length (split topic))); [|lia].
    destruct (split topic) as [|a [|b [|c [|d t]]]] eqn:E;
      cbn in Hlen; try lia.
    destruct (split_inv _ _ _ E) as [Ha (s1 & -> & E1)].
    destruct (split_inv _ _ _ E1) as [Hb (s2 & -> & E2)].
    destruct (split_inv _ _ _ E2) as [Hc' (s3 & -> & E3)].
    cbn [lookup list_lookup default]. exists a, b, s3. auto.
Qed.

Lemma cam_id_is_third_level_witness :
  (3 <= count_slash "site/floor2/cam7/image/raw")%nat /\
  cam_id_of "site/floor2/cam7/image/raw" = "cam7" /\
  exists a b rest,
    "site/floor2/cam7/image/raw" =
      a +:+ String slash (b +:+ String slash
        (cam_id_of "site/floor2/cam7/image/raw" +:+ String slash rest)) /\
    no_slash a = true /\ no_slash b = true /\
    no_slash (cam_id_of "site/floor2/cam7/image/raw") = true.
Proof.
  assert (H : (3 <= count_slash "site/floor2/cam7/image/raw")%nat)
    by (vm_compute; lia).
  split; [exact H|]. split; [reflexivity|].
  exact (proj2 (cam_id_is_third_level "site/floor2/cam7/image/raw") H).
Defined.

(** ** Where a label goes *)

(** X18. With the default [TOPIC_OUT_FMT], whatever the topic of the
    message, a label is published on a topic of exactly four levels,
    [motion/device/<id>/class] with [<id>] the device id read from the
    incoming topic; its last level is [class], so a label never lands on
    an image topic. *)
Theorem label_goes_to_class_topic (cv : OpenCV) (msg : MQTTMessage)
    (p : Publish) :
  try_body cv TOPIC_OUT_FMT_default msg = Ok p ->
  split (out_topic p) =
    ["motion"; "device"; cam_id_of (topic msg); "class"] /\
  cam_id_of (out_topic p) = cam_id_of (topic msg).
Proof.
  intros Hp. apply try_body_Ok in Hp as (_ & _ & Hf & _).
  rewrite format_default in Hf. injection Hf as <-.
  assert (Hs : split ("motion/device/" +:+ cam_id_of (topic msg) +:+ "/class")
               = ["motion"; "device"; cam_id_of (topic msg); "class"]).
  { change ("motion/device/" +:+ cam_id_of (topic msg) +:+ "/class")
      with ("motion" +:+ String slash ("device" +:+ String slash
              (cam_id_of (topic msg) +:+ String slash "class"))).
    rewrite !split_app by (apply cam_id_no_slash || reflexivity).
    rewrite split_no_slash by reflexivity. reflexivity. }
  split; [exact Hs|]. unfold cam_id_of at 1. rewrite Hs. reflexivity.
Qed.

Lemma label_goes_to_class_topic_witness :
  try_body opencv_empty_raises TOPIC_OUT_FMT_default image_message =
    Ok (mkPublish "motion/device/cam1/class" "unknown" 1 false) /\
  split "motion/device/cam1/class" = ["motion"; "device"; "cam1"; "class"].
Proof.
  assert (H : try_body opencv_empty_raises TOPIC_OUT_FMT_default image_message
              = Ok (mkPublish "motion/device/cam1/class" "unknown" 1 false))
    by reflexivity.
  split; [exact H|].
  exact (proj1 (label_goes_to_class_topic _ _ _ H)).
Defined.

(** ** Which label *)

(** X19. A published label is ["person"] exactly when the payload was
    decoded to an image that is not empty and the cascade found at least
    one face in it; for a payload that cannot be decoded, an empty image
    or no face it is ["unknown"]. *)
Theorem person_needs_a_face (cv : OpenCV) (fmt : list Segment)
    (msg : MQTTMessage) (p : Publish) :
  try_body cv fmt msg = Ok p ->
  (label p = "person" <->
   exists img faces,
     imdecode cv (payload msg) = Ok (Some img) /\
     Server.size img <> 0 /\
     detect_faces cv img = Ok faces /\ (0 < faces)%nat) /\
  (label p <> "person" -> label p = "unknown").
Proof.
  unfold try_body. cbn zeta.
  destruct (imdecode cv (payload msg)) as [img|e]; [|discriminate].
  destruct (classify_bgr cv img) as [l|e] eqn:Hl; [|discriminate].
  destruct (format fmt (cam_id_of (topic msg))) as [t|e]; [|discriminate].
  intros [= <-]. cbn [label].
  split; [|destruct (classify_bgr_label _ _ _ Hl); tauto].
  unfold classify_bgr in Hl. destruct img as [img|].
  - destruct (Z.eqb_spec (Server.size img) 0) as [Hz|Hz].
    + injection Hl as <-. split; [discriminate|].
      intros (img' & n & [= <-] & Hs & _). contradiction.
    + destruct (detect_faces cv img) as [faces|e] eqn:Hd; [|discriminate].
      injection Hl as <-. destruct (Nat.ltb_spec 0 faces) as [Hf|Hf].
      * split; [|reflexivity]. intros _. exists img, faces. auto.
      * split; [discriminate|].
        intros (img' & n & [= <-] & _ & Hd' & Hn).
        rewrite Hd in Hd'. injection Hd' as <-. lia.
  - injection Hl as <-. split; [discriminate|].
    intros (img' & n & Hi & _). discriminate.
Qed.

Lemma person_needs_a_face_witness :
  try_body opencv_empty_raises TOPIC_OUT_FMT_default image_message =
    Ok (mkPublish "motion/device/cam1/class" "unknown" 1 false) /\
  label (mkPublish "motion/device/cam1/class" "unknown" 1 false) = "unknown".
Proof.
  assert (H : try_body opencv_empty_raises TOPIC_OUT_FMT_default image_message
              = Ok (mkPublish "motion/device/cam1/class" "unknown" 1 false))
    by reflexivity.
  split; [exact H|].
  apply (proj2 (person_needs_a_face _ _ _ _ H)). discriminate.
Defined.

(** ** A format with a foreign field *)

Lemma format_foreign fmt id :
  foreign fmt -> exists e, format fmt id = Raised e.
Proof.
  induction 1 as [seg fmt Hseg|seg fmt _ [e IH]].
  - destruct seg as [text|name]; [contradiction|].
    cbn [format]. rewrite Hseg. eauto.
  - destruct seg as [text|name]; cbn [format]; rewrite IH.
    + eauto.
    + destruct (String.eqb name "id"); eauto.
Qed.

Lemma on_message_foreign cv fmt msg :
  foreign fmt -> (on_message cv fmt msg).1 = [].
Proof.
  intros Hf. unfold on_message, try_body. cbn zeta.
  destruct (imdecode cv (payload msg)) as [img|e]; [|reflexivity].
  destruct (classify_bgr cv img) as [l|e]; [|reflexivity].
  destruct (format_foreign fmt (cam_id_of (topic msg)) Hf) as [e ->].
  reflexivity.
Qed.

(** X20. When [TOPIC_OUT_FMT] names a replacement field other than
    [id], formatting the output topic raises for every message: the
    exception is caught each time and no label is ever published. *)
Theorem foreign_field_silences (cv : OpenCV) (fmt : list Segment)
    (msgs : list MQTTMessage) :
  foreign fmt -> loop_forever cv fmt msgs = [].
Proof.
  intros Hf. induction msgs as [|msg msgs IH]; [reflexivity|].
  cbn [loop_forever]. rewrite (on_message_foreign cv fmt msg Hf), IH.
  reflexivity.
Qed.

Lemma foreign_field_silences_witness :
  foreign TOPIC_OUT_FMT_device /\
  loop_forever opencv_empty_raises TOPIC_OUT_FMT_device
    [image_message; image_message] = [].
Proof.
  assert (H : foreign TOPIC_OUT_FMT_device).
  { unfold foreign, TOPIC_OUT_FMT_device.
    apply Exists_cons_tl, Exists_cons_hd. reflexivity. }
  split; [exact H|].
  exact (foreign_field_silences opencv_empty_raises TOPIC_OUT_FMT_device _ H).
Defined.

End TopicFacts.
